(** * Dual-backend data access of the club web site: a shallow embedding

    The development follows three source files of the repository:

    - [src/lib/apiService.ts]: [apiRequest] and the resource modules
      [worksApi], [userApi], [messageApi], [votingApi], [knowledgeApi];
    - [src/contexts/authContext.ts]: [ensureAdminExists], the effect run at
      mount, [login], [register], [logout], [isAdmin];
    - [src/components/ImageViewer.tsx]: the handlers of the zoom, rotation,
      navigation and drag controls.

    JavaScript values are modelled as they exist at run time: strings are
    sequences of UTF-16 code units, objects are finite maps from property
    names to values, numbers are binary64 floats.  The remote server, the
    clock and the build flags are inputs of the model.  Code that may throw
    lives in a state-and-exception monad, so that "never raises" is a
    statement about the code and not about a return type.

    Scope of the model: [localStorage] is present and accepts every write
    (no quota, no disabled storage), so that reading and writing it never
    raise; what it holds may be anything, text that does not decode
    included.  A value is written as the text that decodes to it, which is
    what [JSON.stringify] does on the values [json_stable] describes.  The
    body of a response decodes to an object, read as an envelope.
    [console.error] is not modelled.  Properties that would depend on one
    of these limits say so in their hypotheses. *)

From Stdlib Require Import ZArith NArith Ascii Floats.
From stdpp Require Import gmap strings list pretty.

Set Warnings "-register-all".

(* ===================================================================== *)
(** * JavaScript values *)
(* ===================================================================== *)

Module JS.

(** A JavaScript string is a sequence of 16-bit code units. *)
Abbreviation jsstring := (list N).

(** Source literals are written as UTF-8 text; [u16] decodes them into code
    units (one unit below U+10000, a surrogate pair above). *)
Definition cont (a : ascii) : N := N_of_ascii a mod 64.

Definition units_of_code_point (cp : N) : jsstring :=
  if (cp <? 65536)%N then [cp]
  else [(55296 + (cp - 65536) / 1024)%N; (56320 + (cp - 65536) mod 1024)%N].

Fixpoint u16 (s : string) : jsstring :=
  match s with
  | EmptyString => []
  | String a s1 =>
    let b := N_of_ascii a in
    if (b <? 128)%N then b :: u16 s1
    else if (b <? 224)%N then
      match s1 with
      | String a1 s2 => ((b mod 32) * 64 + cont a1)%N :: u16 s2
      | EmptyString => [65533%N]
      end
    else if (b <? 240)%N then
      match s1 with
      | String a1 (String a2 s3) =>
        ((b mod 16) * 4096 + cont a1 * 64 + cont a2)%N :: u16 s3
      | _ => [65533%N]
      end
    else
      match s1 with
      | String a1 (String a2 (String a3 s4)) =>
        units_of_code_point
          ((b mod 8) * 262144 + cont a1 * 4096 + cont a2 * 64 + cont a3)%N
        ++ u16 s4
      | _ => [65533%N]
      end
  end.

(** JSON-representable values: what [JSON.parse] produces and what the
    server and the local store exchange with the client. *)
Inductive json : Type :=
| JNull
| JBool (b : bool)
| JNum (x : float)
| JStr (s : jsstring)
| JArr (items : list json)
| JObj (props : gmap string json).

(** [ToBoolean]: the test performed by [if (v)], [a && b] and [a || b]. *)
Definition truthy (v : json) : bool :=
  match v with
  | JNull => false
  | JBool b => b
  | JNum x => negb (PrimFloat.eqb x 0%float || PrimFloat.is_nan x)
  | JStr s => negb (bool_decide (s = []))
  | JArr _ | JObj _ => true
  end.

(** An optional property ([data?: T]): [None] is [undefined]. *)
Definition truthy_opt (o : option json) : bool :=
  match o with Some v => truthy v | None => false end.

(** [x === 'literal']: strict equality with a string. *)
Definition strict_eq_str (o : option json) (s : jsstring) : bool :=
  match o with
  | Some (JStr t) => bool_decide (t = s)
  | _ => false
  end.

(** Values that can be thrown.  Every error raised by the engine or created
    with [new Error(...)] is an instance of [Error] and has a message. *)
Inductive thrown : Type :=
| ErrorObject (message : jsstring)
| NonError (v : json).

Definition instanceof_Error (e : thrown) : bool :=
  match e with ErrorObject _ => true | NonError _ => false end.

(** Errors the engine raises by itself.  Their wording is the engine's; no
    function of the program inspects it. *)
Definition TypeError (what : string) : thrown := ErrorObject (u16 what).
Definition SyntaxError : thrown := ErrorObject (u16 "Unexpected token in JSON").

(** Result of evaluating code that may throw. *)
Inductive completion (A : Type) : Type :=
| Normal (a : A)
| Throw (e : thrown).
Arguments Normal {A} a.
Arguments Throw {A} e.

(** Property read [v.k] for a name [k] that is not a built-in property of
    arrays, strings, numbers or booleans (the program reads only [role],
    [phone] and [password]): an object yields its property, [null] raises,
    every other value yields [undefined]. *)
Definition get_prop (v : json) (k : string) : completion (option json) :=
  match v with
  | JNull => Throw (TypeError "Cannot read properties of null")
  | JObj props => Normal (props !! k)
  | _ => Normal None
  end.

(** Own enumerable properties, as object rest/spread enumerates them. *)
Definition index_props {A} (f : A -> json) (l : list A) : gmap string json :=
  list_to_map (imap (fun i x => (pretty i, f x)) l).

Definition own_props (v : json) : completion (gmap string json) :=
  match v with
  | JNull => Throw (TypeError "Cannot destructure null")
  | JObj props => Normal props
  | JArr items => Normal (index_props id items)
  | JStr s => Normal (index_props (fun c => JStr [c]) s)
  | JBool _ | JNum _ => Normal ∅
  end.

(** [const { password: _, ...rest } = v]. *)
Definition rest_without (k : string) (v : json) : completion json :=
  match own_props v with
  | Normal props => Normal (JObj (delete k props))
  | Throw e => Throw e
  end.

(** [Array.prototype.some] and [Array.prototype.find] with a callback that
    may throw; both stop at the first element the callback accepts. *)
Fixpoint some_items (f : json -> completion bool) (l : list json) : completion bool :=
  match l with
  | [] => Normal false
  | x :: l1 =>
    match f x with
    | Throw e => Throw e
    | Normal true => Normal true
    | Normal false => some_items f l1
    end
  end.

Fixpoint find_items (f : json -> completion bool) (l : list json)
  : completion (option json) :=
  match l with
  | [] => Normal None
  | x :: l1 =>
    match f x with
    | Throw e => Throw e
    | Normal true => Normal (Some x)
    | Normal false => find_items f l1
    end
  end.

(** [users.some(cb)] and [users.find(cb)] on a value of unknown shape: only
    an array has these methods. *)
Definition array_some (f : json -> completion bool) (v : json) : completion bool :=
  match v with
  | JArr items => some_items f items
  | JNull => Throw (TypeError "Cannot read properties of null")
  | _ => Throw (TypeError "users.some is not a function")
  end.

Definition array_find (f : json -> completion bool) (v : json)
  : completion (option json) :=
  match v with
  | JArr items => find_items f items
  | JNull => Throw (TypeError "Cannot read properties of null")
  | _ => Throw (TypeError "users.find is not a function")
  end.

(** [users.push(x)]. *)
Definition array_push (v : json) (x : json) : completion json :=
  match v with
  | JArr items => Normal (JArr (items ++ [x]))
  | JNull => Throw (TypeError "Cannot read properties of null")
  | _ => Throw (TypeError "users.push is not a function")
  end.

End JS.
Import JS.

(* ===================================================================== *)
(** * Regular expressions *)
(* ===================================================================== *)

(** The three patterns of [register] are anchored ([^...$]) and use only
    literals, character classes, concatenation, [*], [+] and [{9}].  They are
    kept as syntax and run by a derivative matcher; without the [u] flag a
    pattern consumes one code unit at a time. *)
Module Regex.

Inductive regex : Type :=
| Void
| Eps
| Unit (c : N)
| Range (lo hi : N)
| Alt (r1 r2 : regex)
| Cat (r1 r2 : regex)
| Star (r : regex).

Fixpoint nullable (r : regex) : bool :=
  match r with
  | Void => false
  | Eps => true
  | Unit _ => false
  | Range _ _ => false
  | Alt r1 r2 => nullable r1 || nullable r2
  | Cat r1 r2 => nullable r1 && nullable r2
  | Star _ => true
  end.

Fixpoint deriv (c : N) (r : regex) : regex :=
  match r with
  | Void => Void
  | Eps => Void
  | Unit d => if (c =? d)%N then Eps else Void
  | Range lo hi => if ((lo <=? c) && (c <=? hi))%N then Eps else Void
  | Alt r1 r2 => Alt (deriv c r1) (deriv c r2)
  | Cat r1 r2 =>
    if nullable r1 then Alt (Cat (deriv c r1) r2) (deriv c r2)
    else Cat (deriv c r1) r2
  | Star r1 => Cat (deriv c r1) (Star r1)
  end.

Fixpoint matches (r : regex) (s : jsstring) : bool :=
  match s with
  | [] => nullable r
  | c :: s1 => matches (deriv c r) s1
  end.

(** [/^r$/.test(s)]. *)
Definition test (r : regex) (s : jsstring) : bool := matches r s.

(** Pattern syntax. *)
Fixpoint Lit (s : jsstring) : regex :=
  match s with
  | [] => Eps
  | c :: s1 => Cat (Unit c) (Lit s1)
  end.

(** A character class listing its members, as in [[班|級]]. *)
Fixpoint Class (members : jsstring) : regex :=
  match members with
  | [] => Void
  | c :: rest => Alt (Unit c) (Class rest)
  end.

Definition Plus (r : regex) : regex := Cat r (Star r).

Fixpoint Repeat (n : nat) (r : regex) : regex :=
  match n with
  | O => Eps
  | S k => Cat r (Repeat k r)
  end.

Definition digit : regex := Range 48 57.              (* \d, [0-9] *)
Definition cjk : regex := Range 19968 40869.          (* [\u4e00-\u9fa5] *)

(** The language of a pattern, for the proofs. *)
Fixpoint lang (r : regex) (s : jsstring) : Prop :=
  match r with
  | Void => False
  | Eps => s = []
  | Unit c => s = [c]
  | Range lo hi => exists c, s = [c] /\ (lo <= c <= hi)%N
  | Alt r1 r2 => lang r1 s \/ lang r2 s
  | Cat r1 r2 => exists s1 s2, s = s1 ++ s2 /\ lang r1 s1 /\ lang r2 s2
  | Star r1 => exists ss, s = concat ss /\ Forall (lang r1) ss
  end.

End Regex.

(* ===================================================================== *)
(** * The browser state and the monad of the program *)
(* ===================================================================== *)

Module Runtime.

(** A string held by [localStorage], seen through [JSON.parse], the only
    operation the program applies to it besides testing it for emptiness:
    the text of a JSON value (never empty), the empty string, or any other
    text, which [JSON.parse] rejects.  [JSON.stringify v] is taken to be a
    text that parses back to [v].  This is so for the records of strings the
    program builds and for every decoded value whose numbers are finite and
    are not the negative zero; the encoder writes [null] for a number that
    is not finite and [0] for [-0] ([JSON_roundtrip], [json_stable]
    below). *)
Inductive json_text : Type :=
| TextOf (v : json)
| EmptyText
| MalformedText.

Definition JSON_stringify (v : json) : json_text := TextOf v.

Definition JSON_parse (t : json_text) : completion json :=
  match t with
  | TextOf v => Normal v
  | EmptyText | MalformedText => Throw SyntaxError
  end.

(** Truthiness of a string: non-empty. *)
Definition text_truthy (t : json_text) : bool :=
  match t with EmptyText => false | _ => true end.

(** [localStorage.getItem(k) || '[]'] and [if (saved)] work on [string | null]. *)
Definition or_else (o : option json_text) (d : json_text) : json_text :=
  match o with
  | Some t => if text_truthy t then t else d
  | None => d
  end.

(** The state the program reads and writes: the origin's [localStorage] and
    the two React state cells of [useAuthContext]. *)
Record world : Type := World {
  localStorage : gmap string json_text;
  isAuthenticated : bool;
  user : json;                       (* [User | null] *)
}.

(** Computations: a state transformer that ends normally or by a throw; the
    state reached before a throw is kept. *)
Definition M (A : Type) : Type := world -> completion A * world.

Definition ret {A} (a : A) : M A := fun w => (Normal a, w).
Definition throw {A} (e : thrown) : M A := fun w => (Throw e, w).
Definition bind {A B} (m : M A) (k : A -> M B) : M B :=
  fun w => match m w with
           | (Normal a, w1) => k a w1
           | (Throw e, w1) => (Throw e, w1)
           end.
Definition try_catch {A} (m : M A) (handler : thrown -> M A) : M A :=
  fun w => match m w with
           | (Normal a, w1) => (Normal a, w1)
           | (Throw e, w1) => handler e w1
           end.
Definition lift {A} (c : completion A) : M A := fun w => (c, w).

Definition cbind {A B} (c : completion A) (k : A -> completion B) : completion B :=
  match c with
  | Normal a => k a
  | Throw e => Throw e
  end.

#[global] Instance M_ret : MRet M := @ret.
#[global] Instance M_bind : MBind M := fun A B k m => bind m k.
#[global] Instance completion_ret : MRet completion := @Normal.
#[global] Instance completion_bind : MBind completion := fun A B k c => cbind c k.

(** [localStorage] and the React setters.  The store is present and has
    room: [getItem], [setItem] and [removeItem] take effect and do not
    raise. *)
Definition getItem (k : string) : M (option json_text) :=
  fun w => (Normal (localStorage w !! k), w).
Definition setItem (k : string) (t : json_text) : M unit :=
  fun w => (Normal tt,
            World (<[k := t]> (localStorage w)) (isAuthenticated w) (user w)).
Definition removeItem (k : string) : M unit :=
  fun w => (Normal tt,
            World (delete k (localStorage w)) (isAuthenticated w) (user w)).
Definition setUser (u : json) : M unit :=
  fun w => (Normal tt, World (localStorage w) (isAuthenticated w) u).
Definition setIsAuthenticated (b : bool) : M unit :=
  fun w => (Normal tt, World (localStorage w) b (user w)).

(** Modelled from the spec: [safeLocalStorageGet], [safeLocalStorageSet] and
    [safeLocalStorageRemove] of [src/lib/utils], which is not among the
    sources.  "get(key, fallback): reads and JSON-decodes the value at key; on
    missing key, decode failure, or store unavailability, returns fallback and
    never raises.  set(key, value): JSON-encodes and writes; returns whether
    the write succeeded; never raises.  remove(key): best-effort delete." *)
Definition safeLocalStorageGet (k : string) (fallback : json) : M json :=
  try_catch
    (item ← getItem k;
     match item with
     | Some t => lift (JSON_parse t)
     | None => mret fallback
     end)
    (fun _ => mret fallback).

Definition safeLocalStorageSet (k : string) (v : json) : M bool :=
  try_catch
    (_ ← setItem k (JSON_stringify v); mret true)
    (fun _ => mret false).

Definition safeLocalStorageRemove (k : string) : M unit :=
  try_catch (removeItem k) (fun _ => mret tt).

End Runtime.
Import Runtime.

(* ===================================================================== *)
(** * src/lib/apiService.ts *)
(* ===================================================================== *)

Module ApiService.

(** [interface ApiResponse<T> { success: boolean; data?: T; error?: string }] *)
Record ApiResponse : Type := Envelope {
  success : bool;
  data : option json;
  error : option jsstring;
}.

(** The options bag of a request.  A body is the text [JSON.stringify]
    produced. *)
Record RequestInit : Type := Init {
  method : option jsstring;
  body : option json_text;
  headers : gmap string jsstring;
}.

Definition no_options : RequestInit := Init None None ∅.
Definition POST (payload : json) : RequestInit :=
  Init (Some (u16 "POST")) (Some (JSON_stringify payload)) ∅.

(** What the network gives back.  [fetch] resolves to a response or rejects
    (network unreachable, DNS, ...); [response.json()] resolves to the decoded
    body, which the source types as [ApiResponse<T>], or rejects.  A body
    that decodes to something else than an object ([null], a number) is not
    among the outcomes modelled. *)
Inductive body_result : Type :=
| JsonBody (payload : ApiResponse)
| NotJson (fault : thrown).

Record Response : Type := Resp {
  status : N;
  json_body : body_result;
}.

Definition ok (r : Response) : bool :=
  ((200 <=? status r) && (status r <=? 299))%N.

Inductive fetch_result : Type :=
| Resolved (r : Response)
| Rejected (fault : thrown).

(** The environment of the page: build flags, the remote side and the clock. *)
Record Env : Type := {
  DEV : bool;                                   (* import.meta.env.DEV *)
  API_BASE_URL : jsstring;                      (* VITE_API_BASE_URL || '/api' *)
  fetch : jsstring -> RequestInit -> fetch_result;
  Date_now : N;                                 (* Date.now() *)
  Date_toISOString : jsstring;                  (* new Date().toISOString() *)
  load_time : jsstring;                         (* the same, at module load *)
}.

Section Client.
Context (env : Env).

Definition await_fetch (url : jsstring) (init : RequestInit) : M Response :=
  match fetch env url init with
  | Resolved r => mret r
  | Rejected fault => throw fault
  end.

Definition response_json (r : Response) : M ApiResponse :=
  match json_body r with
  | JsonBody payload => mret payload
  | NotJson fault => throw fault
  end.

Definition failure (message : jsstring) : ApiResponse :=
  Envelope false None (Some message).

Definition apiRequest (endpoint : jsstring) (options : RequestInit) : M ApiResponse :=
  try_catch
    (response ← await_fetch (API_BASE_URL env ++ u16 "/" ++ endpoint)
        (Init (method options) (body options)
              (headers options ∪ {[ "Content-Type" := u16 "application/json" ]}));
     if negb (ok response) then
       throw (ErrorObject (u16 "API请求失败: " ++ u16 (pretty (status response))))
     else
       response_json response)
    (fun err =>
       if DEV env then
         mret (failure (u16 "API服务不可用，正在使用本地存储"))
       else
         (* error instanceof Error ? error.message : '未知错误' *)
         mret (failure (match err with
                        | ErrorObject message => message
                        | NonError _ => u16 "未知错误"
                        end))).

(** The [try] block the five read operations share, up to the key: the
    stored text, when there is one and it is not empty, is decoded and
    returned as a success; a decoding error is caught and logged. *)
Definition from_cache (key : string) : M (option ApiResponse) :=
  try_catch
    (saved ← getItem key;
     match saved with
     | Some t =>
       if text_truthy t then
         v ← lift (JSON_parse t);
         mret (Some (Envelope true (Some v) None))
       else mret None
     | None => mret None
     end)
    (fun _ => mret None).

Definition or_result (cached : option ApiResponse) (result : ApiResponse) : ApiResponse :=
  match cached with Some r => r | None => result end.

(** [worksApi] *)
Definition getSubmittedWorks : M ApiResponse :=
  result ← apiRequest (u16 "works/submitted") no_options;
  if negb (success result) then
    cached ← from_cache "submittedWorks"; mret (or_result cached result)
  else mret result.

Definition getFeaturedWorks : M ApiResponse :=
  result ← apiRequest (u16 "works/featured") no_options;
  if negb (success result) then
    cached ← from_cache "featuredWorks"; mret (or_result cached result)
  else mret result.

Definition submitWork (work : json) : M ApiResponse :=
  apiRequest (u16 "works/submit") (POST work).

(** [userApi] *)
Definition userApi_login (phone password : jsstring) : M ApiResponse :=
  apiRequest (u16 "user/login")
    (POST (JObj {[ "phone" := JStr phone; "password" := JStr password ]})).

Definition userApi_register (phone username password userType : jsstring)
  : M ApiResponse :=
  apiRequest (u16 "user/register")
    (POST (JObj {[ "phone" := JStr phone; "username" := JStr username;
                   "password" := JStr password; "userType" := JStr userType ]})).

Definition getCurrentUser : M ApiResponse :=
  apiRequest (u16 "user/current") no_options.

(** [messageApi] *)
Definition getMessages : M ApiResponse :=
  result ← apiRequest (u16 "messages") no_options;
  if negb (success result) then
    cached ← from_cache "messages"; mret (or_result cached result)
  else mret result.

Definition postMessage (message : json) : M ApiResponse :=
  apiRequest (u16 "messages") (POST message).

(** [votingApi] *)
Definition getActivities : M ApiResponse :=
  result ← apiRequest (u16 "voting/activities") no_options;
  if negb (success result) then
    cached ← from_cache "votingActivities"; mret (or_result cached result)
  else mret result.

Definition vote (activityId : jsstring) (workId : float) : M ApiResponse :=
  apiRequest (u16 "voting/activities/" ++ activityId ++ u16 "/vote")
    (POST (JObj {[ "workId" := JNum workId ]})).

(** [knowledgeApi] *)
Definition getKnowledgeItems : M ApiResponse :=
  result ← apiRequest (u16 "knowledge") no_options;
  if negb (success result) then
    cached ← from_cache "photographyKnowledge"; mret (or_result cached result)
  else mret result.

End Client.
End ApiService.
Import ApiService.

(* ===================================================================== *)
(** * src/contexts/authContext.ts *)
(* ===================================================================== *)

Module AuthContext.
Import Regex.

(** ['student' | 'teacher'] *)
Inductive UserType : Type := student | teacher.

Definition userType_string (t : UserType) : jsstring :=
  match t with student => u16 "student" | teacher => u16 "teacher" end.

(** [/^202[0-9]届[1-9]\d*[班|級][\u4e00-\u9fa5]+$/] *)
Definition studentNameRegex : regex :=
  Cat (Lit (u16 "202"))
 (Cat (Range 48 57)
 (Cat (Lit (u16 "届"))
 (Cat (Range 49 57)
 (Cat (Star digit)
 (Cat (Class (u16 "班|級"))
      (Plus cjk)))))).

(** [/^[\u4e00-\u9fa5]+$/] *)
Definition teacherNameRegex : regex := Plus cjk.

(** [/^1[3-9]\d{9}$/] *)
Definition phoneRegex : regex :=
  Cat (Lit (u16 "1")) (Cat (Range 51 57) (Repeat 9 digit)).

Definition DEFAULT_ADMIN_phone : jsstring := u16 "13800138000".

Section Hook.
Context (env : Env).

Definition DEFAULT_ADMIN : gmap string json :=
  {[ "id" := JStr (u16 "admin-001");
     "username" := JStr (u16 "管理员");
     "phone" := JStr DEFAULT_ADMIN_phone;
     "role" := JStr (u16 "admin");
     "createdAt" := JStr (load_time env) ]}.

(** [(u) => u.role === 'admin' && u.phone === DEFAULT_ADMIN.phone] *)
Definition is_default_admin (u : json) : completion bool :=
  role ← get_prop u "role";
  if strict_eq_str role (u16 "admin") then
    phone ← get_prop u "phone";
    mret (strict_eq_str phone DEFAULT_ADMIN_phone)
  else mret false.

Definition ensureAdminExists : M unit :=
  try_catch
    (users ← safeLocalStorageGet "users" (JArr []);
     adminExists ← lift (array_some is_default_admin users);
     if negb adminExists then
       let adminWithPassword :=
         JObj (<["password" := JStr (u16 "admin123")]> DEFAULT_ADMIN) in
       users1 ← lift (array_push users adminWithPassword);
       safeLocalStorageSet "users" users1;;
       mret tt
     else mret tt)
    (fun _ => mret tt).

(** The effect run when the hook mounts. *)
Definition mount : M unit :=
  savedUser ← getItem "currentUser";
  match savedUser with
  | Some t =>
    if text_truthy t then
      try_catch
        (parsedUser ← lift (JSON_parse t);
         setUser parsedUser;;
         setIsAuthenticated true)
        (fun _ => mret tt)
    else mret tt
  | None => mret tt
  end;;
  ensureAdminExists.

(** [(u) => u.phone === phone && u.password === password] *)
Definition has_credentials (phone password : jsstring) (u : json) : completion bool :=
  p ← get_prop u "phone";
  if strict_eq_str p phone then
    q ← get_prop u "password";
    mret (strict_eq_str q password)
  else mret false.

Definition login (phone password : jsstring) : M bool :=
  try_catch
    (result ← userApi_login env phone password;
     if success result && truthy_opt (data result) then
       let d := default JNull (data result) in
       setUser d;;
       setIsAuthenticated true;;
       safeLocalStorageSet "currentUser" d;;
       mret true
     else
       users ← safeLocalStorageGet "users" (JArr []);
       foundUser ← lift (array_find (has_credentials phone password) users);
       if truthy_opt foundUser then
         userWithoutPassword ←
           lift (rest_without "password" (default JNull foundUser));
         setUser userWithoutPassword;;
         setIsAuthenticated true;;
         safeLocalStorageSet "currentUser" userWithoutPassword;;
         mret true
       else mret false)
    (fun _ => mret false).

(** [(u) => u.phone === phone] *)
Definition has_phone (phone : jsstring) (u : json) : completion bool :=
  p ← get_prop u "phone";
  mret (strict_eq_str p phone).

Definition student_format_error : thrown :=
  ErrorObject (u16 "学生用户名格式不正确，请使用" ++ [34%N]
               ++ u16 "2025届X班姓名" ++ [34%N]
               ++ u16 "格式（如：2025届1班张三）").
Definition teacher_format_error : thrown :=
  ErrorObject (u16 "老师用户名格式不正确，请直接使用老师姓名（如：李老师）").
Definition phone_format_error : thrown :=
  ErrorObject (u16 "请输入有效的手机号码").
Definition phone_taken_error : thrown :=
  ErrorObject (u16 "该手机号已被注册").

Definition newUser (phone username password : jsstring) (userType : UserType)
  : gmap string json :=
  {[ "id" := JStr (u16 "user-" ++ u16 (pretty (Date_now env)));
     "username" := JStr username;
     "phone" := JStr phone;
     "role" := JStr (u16 "user");
     "userType" := JStr (userType_string userType);
     "password" := JStr password;
     "createdAt" := JStr (Date_toISOString env) ]}.

(** [userType] defaults to ['student'] at the call. *)
Definition register (phone username password : jsstring) (userType : UserType)
  : M bool :=
  try_catch
    (result ← userApi_register env phone username password
                (userType_string userType);
     if success result && truthy_opt (data result) then
       userWithoutPassword ←
         lift (rest_without "password" (default JNull (data result)));
       setUser userWithoutPassword;;
       setIsAuthenticated true;;
       safeLocalStorageSet "currentUser" userWithoutPassword;;
       mret true
     else
       match userType with
       | student =>
         if negb (test studentNameRegex username)
         then throw student_format_error else mret tt
       | teacher =>
         if negb (test teacherNameRegex username)
         then throw teacher_format_error else mret tt
       end;;
       (if negb (test phoneRegex phone)
        then throw phone_format_error else mret tt);;
       stored ← getItem "users";
       users ← lift (JSON_parse (or_else stored (TextOf (JArr []))));
       taken ← lift (array_some (has_phone phone) users);
       (if (taken : bool) then throw phone_taken_error else mret tt);;
       let record := newUser phone username password userType in
       users1 ← lift (array_push users (JObj record));
       setItem "users" (JSON_stringify users1);;
       userWithoutPassword ← lift (rest_without "password" (JObj record));
       setUser userWithoutPassword;;
       setIsAuthenticated true;;
       setItem "currentUser" (JSON_stringify userWithoutPassword);;
       mret true)
    (fun err => if instanceof_Error err then throw err else mret false).

Definition logout : M unit :=
  setIsAuthenticated false;;
  setUser JNull;;
  removeItem "currentUser".

(** [user?.role === 'admin'] *)
Definition optional_prop (v : json) (k : string) : option json :=
  match v with
  | JObj props => props !! k
  | _ => None
  end.

Definition isAdmin (w : world) : bool :=
  strict_eq_str (optional_prop (user w) "role") (u16 "admin").

End Hook.
End AuthContext.
Import AuthContext.

(* ===================================================================== *)
(** * src/components/ImageViewer.tsx *)
(* ===================================================================== *)

Module ImageViewer.
#[local] Set Warnings "-inexact-float".
#[local] Open Scope float_scope.

Definition is_neg_zero (x : float) : bool :=
  match classify x with NZero => true | _ => false end.
Definition is_pos_zero (x : float) : bool :=
  match classify x with PZero => true | _ => false end.

(** [Math.min] and [Math.max] as ECMAScript defines them: [NaN] if an
    argument is [NaN]; otherwise the arguments are folded from [+Infinity]
    (resp. [-Infinity]), with [-0] below [+0]. *)
Definition min_step (lowest number : float) : float :=
  if is_neg_zero number && is_pos_zero lowest then number
  else if number <? lowest then number
  else lowest.

Definition max_step (highest number : float) : float :=
  if is_pos_zero number && is_neg_zero highest then number
  else if highest <? number then number
  else highest.

Definition Math_min (a b : float) : float :=
  if is_nan a || is_nan b then nan
  else min_step (min_step infinity a) b.

Definition Math_max (a b : float) : float :=
  if is_nan a || is_nan b then nan
  else max_step (max_step neg_infinity a) b.

(** [setScale(prev => Math.min(prev + 0.2, 5))] *)
Definition handleZoomIn (prev : float) : float := Math_min (prev + 0.2) 5.

(** [setScale(prev => Math.max(prev - 0.2, 0.2))] *)
Definition handleZoomOut (prev : float) : float := Math_max (prev - 0.2) 0.2.

(** [useState(1)] *)
Definition initial_scale : float := 1.

Inductive zoom : Type := ZoomIn | ZoomOut.

Definition apply_zoom (scale : float) (op : zoom) : float :=
  match op with
  | ZoomIn => handleZoomIn scale
  | ZoomOut => handleZoomOut scale
  end.

(** The scale after a sequence of zoom operations on a fresh viewer. *)
Definition scale_after (ops : list zoom) : float :=
  fold_left apply_zoom ops initial_scale.

(** The scales a fresh viewer can reach, found by exhaustive search: the
    search stops when a round adds nothing new. *)
Definition known (x : float) (seen : list float) : bool :=
  existsb (Leibniz.eqb x) seen.

Definition add_new (x : float) (acc : list float * list float)
  : list float * list float :=
  if known x (fst acc) then acc else (x :: fst acc, x :: snd acc).

Fixpoint explore (fuel : nat) (seen todo : list float) : list float :=
  match fuel with
  | O => seen
  | S k =>
    match todo with
    | [] => seen
    | x :: rest =>
      let acc := add_new (handleZoomOut x) (add_new (handleZoomIn x) (seen, rest)) in
      explore k (fst acc) (snd acc)
    end
  end.

Definition reachable_scales : list float :=
  Eval vm_compute in explore 1000 [initial_scale] [initial_scale].

End ImageViewer.

(** ** The other controls of the viewer *)

Module ImageViewerControls.
#[local] Open Scope Z_scope.

(** [rotation] starts at 0 and moves by quarter turns: it only ever holds
    integers, which binary64 holds exactly, and is kept as an integer (the
    sign of a zero, which [rotate(...deg)] does not show, is not kept).  On
    such numbers [%] is the remainder that takes the sign of the dividend. *)

(** [setRotation(prev => (prev - 90) % 360)] *)
Definition handleRotateLeft (prev : Z) : Z := Z.rem (prev - 90) 360.

(** [setRotation(prev => (prev + 90) % 360)] *)
Definition handleRotateRight (prev : Z) : Z := Z.rem (prev + 90) 360.

Inductive turn : Type := RotateLeft | RotateRight.

Definition apply_turn (rotation : Z) (t : turn) : Z :=
  match t with
  | RotateLeft => handleRotateLeft rotation
  | RotateRight => handleRotateRight rotation
  end.

(** The rotation after a sequence of turns on a fresh viewer ([useState(0)]). *)
Definition rotation_after (turns : list turn) : Z := fold_left apply_turn turns 0.

(** [handlePrevImage] and [handleNextImage]: the index handed to
    [onIndexChange], or nothing when the callback is not called.  The props
    are the list of images, the current index and whether a callback was
    given. *)
Definition handlePrevImage {A} (images : list A) (currentIndex : Z)
    (onIndexChange : bool) : option Z :=
  let len := Z.of_nat (length images) in
  if (1 <? len) && onIndexChange
  then Some (Z.rem (currentIndex - 1 + len) len)
  else None.

Definition handleNextImage {A} (images : list A) (currentIndex : Z)
    (onIndexChange : bool) : option Z :=
  let len := Z.of_nat (length images) in
  if (1 <? len) && onIndexChange
  then Some (Z.rem (currentIndex + 1) len)
  else None.

(** Dragging.  The cells the three mouse handlers read and write. *)
Record point : Type := Point { x : float; y : float }.

Record drag : Type := Drag {
  scale : float;
  position : point;
  isDragging : bool;
  startPosition : point;
}.

Inductive mouse : Type :=
| MouseDown (clientX clientY : float)
| MouseMove (clientX clientY : float)
| MouseUp.

Definition handleMouseDown (clientX clientY : float) (v : drag) : drag :=
  if (scale v <=? 1)%float then v
  else Drag (scale v) (position v) true
            (Point (clientX - x (position v)) (clientY - y (position v))).

Definition handleMouseMove (clientX clientY : float) (v : drag) : drag :=
  if negb (isDragging v) then v
  else Drag (scale v)
            (Point (clientX - x (startPosition v)) (clientY - y (startPosition v)))
            (isDragging v) (startPosition v).

Definition handleMouseUp (v : drag) : drag :=
  Drag (scale v) (position v) false (startPosition v).

Definition handle (v : drag) (e : mouse) : drag :=
  match e with
  | MouseDown cx cy => handleMouseDown cx cy v
  | MouseMove cx cy => handleMouseMove cx cy v
  | MouseUp => handleMouseUp v
  end.

End ImageViewerControls.

(* ===================================================================== *)
(** * Vocabulary of the properties *)
(* ===================================================================== *)

(** ** The resource modules *)

(** The request [apiRequest] sends. *)
Definition sent_url (env : Env) (endpoint : jsstring) : jsstring :=
  API_BASE_URL env ++ u16 "/" ++ endpoint.

Definition sent_init (options : RequestInit) : RequestInit :=
  Init (method options) (body options)
       (headers options ∪ {[ "Content-Type" := u16 "application/json" ]}).

(** The three error texts of [apiRequest]. *)
Definition request_failed (status : N) : jsstring :=
  u16 "API请求失败: " ++ u16 (pretty status).
Definition service_unavailable : jsstring := u16 "API服务不可用，正在使用本地存储".
Definition unknown_error : jsstring := u16 "未知错误".

(** The text the [catch] block of [apiRequest] reports for a caught value. *)
Definition reported (env : Env) (err : thrown) : jsstring :=
  if DEV env then service_unavailable
  else match err with
       | ErrorObject message => message
       | NonError _ => unknown_error
       end.

(** What [apiRequest] makes of each outcome of the network call. *)
Definition reply (env : Env) (outcome : fetch_result) : ApiResponse :=
  match outcome with
  | Rejected fault => failure (reported env fault)
  | Resolved resp =>
    if ok resp then
      match json_body resp with
      | JsonBody payload => payload
      | NotJson fault => failure (reported env fault)
      end
    else failure (reported env (ErrorObject (request_failed (status resp))))
  end.

(** The five read operations, with the endpoint each one asks and the key
    of its local copy. *)
Inductive read_op : Type :=
| GetSubmittedWorks | GetFeaturedWorks | GetMessages | GetActivities
| GetKnowledgeItems.

Definition run_read (env : Env) (op : read_op) : M ApiResponse :=
  match op with
  | GetSubmittedWorks => getSubmittedWorks env
  | GetFeaturedWorks => getFeaturedWorks env
  | GetMessages => getMessages env
  | GetActivities => getActivities env
  | GetKnowledgeItems => getKnowledgeItems env
  end.

Definition read_endpoint (op : read_op) : jsstring :=
  match op with
  | GetSubmittedWorks => u16 "works/submitted"
  | GetFeaturedWorks => u16 "works/featured"
  | GetMessages => u16 "messages"
  | GetActivities => u16 "voting/activities"
  | GetKnowledgeItems => u16 "knowledge"
  end.

Definition read_key (op : read_op) : string :=
  match op with
  | GetSubmittedWorks => "submittedWorks"
  | GetFeaturedWorks => "featuredWorks"
  | GetMessages => "messages"
  | GetActivities => "votingActivities"
  | GetKnowledgeItems => "photographyKnowledge"
  end.

(** The three write operations. *)
Inductive write_op : Type :=
| SubmitWork (work : json)
| PostMessage (message : json)
| Vote (activityId : jsstring) (workId : float).

Definition run_write (env : Env) (op : write_op) : M ApiResponse :=
  match op with
  | SubmitWork work => submitWork env work
  | PostMessage message => postMessage env message
  | Vote activityId workId => vote env activityId workId
  end.

Definition write_endpoint (op : write_op) : jsstring :=
  match op with
  | SubmitWork _ => u16 "works/submit"
  | PostMessage _ => u16 "messages"
  | Vote activityId _ => u16 "voting/activities/" ++ activityId ++ u16 "/vote"
  end.

(** The options each write operation hands to [apiRequest]. *)
Definition write_options (op : write_op) : RequestInit :=
  match op with
  | SubmitWork work => POST work
  | PostMessage message => POST message
  | Vote _ workId => POST (JObj {[ "workId" := JNum workId ]})
  end.

(** A remote call fails when the transport rejects, the status is not a
    success, the body is not JSON, or the body is a failure envelope. *)
Definition call_fails (outcome : fetch_result) : Prop :=
  match outcome with
  | Rejected _ => True
  | Resolved resp =>
    ok resp = false \/
    match json_body resp with
    | NotJson _ => True
    | JsonBody payload => success payload = false
    end
  end.

(** Every operation of the five resource modules. *)
Inductive operation : Type :=
| Read (op : read_op)
| Write (op : write_op)
| UserLogin (phone password : jsstring)
| UserRegister (phone username password userType : jsstring)
| GetCurrentUser.

Definition run (env : Env) (op : operation) : M ApiResponse :=
  match op with
  | Read r => run_read env r
  | Write w => run_write env w
  | UserLogin phone password => userApi_login env phone password
  | UserRegister phone username password userType =>
    userApi_register env phone username password userType
  | GetCurrentUser => getCurrentUser env
  end.

(** The envelope invariant: a success carries data, a failure does not. *)
Definition envelope_invariant (r : ApiResponse) : Prop :=
  (success r = true -> is_Some (data r)) /\ (success r = false -> data r = None).

(** The remote side keeps the invariant in the bodies it sends with a
    success status. *)
Definition server_keeps_invariant (env : Env) : Prop :=
  forall url init resp payload,
    fetch env url init = Resolved resp -> ok resp = true ->
    json_body resp = JsonBody payload -> envelope_invariant payload.

(** C6 as the specification words it. *)
Definition returns_valid_envelope (env : Env) (op : operation) (w : world) : Prop :=
  forall r w1, run env op w = (Normal r, w1) -> envelope_invariant r.

(** C7, its clause on HTTP statuses, as the specification words it. *)
Definition status_is_reported (env : Env) (endpoint : jsstring)
    (options : RequestInit) (w : world) : Prop :=
  forall resp,
    fetch env (sent_url env endpoint) (sent_init options) = Resolved resp ->
    ok resp = false ->
    apiRequest env endpoint options w
    = (Normal (failure (request_failed (status resp))), w).

(** Sample environments and states. *)
Definition page (dev : bool) (net : jsstring -> RequestInit -> fetch_result) : Env :=
  {| DEV := dev; API_BASE_URL := u16 "/api"; fetch := net;
     Date_now := 1762041600000; Date_toISOString := u16 "2025-11-02T00:00:00.000Z";
     load_time := u16 "2025-11-01T08:00:00.000Z" |}.

Definition unreachable : jsstring -> RequestInit -> fetch_result :=
  fun _ _ => Rejected (ErrorObject (u16 "Failed to fetch")).

Definition answers (st : N) (payload : ApiResponse)
  : jsstring -> RequestInit -> fetch_result :=
  fun _ _ => Resolved (Resp st (JsonBody payload)).

(** A server that refuses the requests sent to one address and accepts
    every other request. *)
Definition refused : ApiResponse := Envelope false None (Some (u16 "refused")).

Definition refuses (address : jsstring) : jsstring -> RequestInit -> fetch_result :=
  fun url _ =>
    if bool_decide (url = address)
    then Resolved (Resp 200 (JsonBody refused))
    else Resolved (Resp 200 (JsonBody (Envelope true (Some (JArr [])) None))).

Definition fresh : world := World ∅ false JNull.

(** ** The session manager *)

(** A record counts as the administrator when its role is [admin] and its
    phone is the reserved one. *)
Definition is_admin_record (u : json) : bool :=
  strict_eq_str (optional_prop u "role") (u16 "admin")
  && strict_eq_str (optional_prop u "phone") DEFAULT_ADMIN_phone.

(** The records of the stored roster; none when the key is absent or does
    not hold an array. *)
Definition roster (w : world) : list json :=
  match localStorage w !! "users" with
  | Some (TextOf (JArr items)) => items
  | _ => []
  end.

Definition admin_count (w : world) : nat :=
  length (List.filter is_admin_record (roster w)).

(** The state after [n] runs of the initialization routine. *)
Fixpoint initialized (env : Env) (n : nat) (w : world) : world :=
  match n with
  | O => w
  | S k => snd (ensureAdminExists env (initialized env k w))
  end.

(** C3 as the specification words it. *)
Definition one_admin_after_each_run (env : Env) (w : world) : Prop :=
  forall n, 1 <= n -> admin_count (initialized env n w) = 1.

(** A roster the routine can read: the key is absent, holds a text that
    does not decode, or holds an array without [null] entries. *)
Definition usable_roster (w : world) : Prop :=
  match localStorage w !! "users" with
  | Some (TextOf (JArr items)) => Forall (fun u => u <> JNull) items
  | Some (TextOf _) => False
  | _ => True
  end.

Definition admin_record (env : Env) : json :=
  JObj (<["password" := JStr (u16 "admin123")]> (DEFAULT_ADMIN env)).

Definition two_admins (env : Env) : world :=
  World {[ "users" := TextOf (JArr [admin_record env; admin_record env]) ]}
        false JNull.

(** What [safeLocalStorageGet('users', [])] yields. *)
Definition stored_users (w : world) : json :=
  match localStorage w !! "users" with
  | Some (TextOf v) => v
  | _ => JArr []
  end.

Definition with_users (w : world) (items : list json) : world :=
  World (<["users" := TextOf (JArr items)]> (localStorage w))
        (isAuthenticated w) (user w).

(** The remote answer the session manager accepts:
    [result.success && result.data]. *)
Definition remote_ok (r : ApiResponse) : bool :=
  success r && truthy_opt (data r).

(** The state after a user has been adopted: the two React cells are set and
    the user is persisted under [currentUser]. *)
Definition signed_in (w : world) (u : json) : world :=
  World (<["currentUser" := TextOf u]> (localStorage w)) true u.

(** A record whose phone and password are both the given strings. *)
Definition credentials_match (phone password : jsstring) (u : json) : bool :=
  strict_eq_str (optional_prop u "phone") phone
  && strict_eq_str (optional_prop u "password") password.

(** [u] is the first record of [items] with these credentials, and the scan
    reaches it: no earlier entry is [null]. *)
Definition first_match (phone password : jsstring) (items : list json) (u : json)
  : Prop :=
  exists before after,
    items = before ++ u :: after
    /\ credentials_match phone password u = true
    /\ Forall (fun x => x <> JNull /\ credentials_match phone password x = false)
              before.

(** A record with its [password] property removed. *)
Definition without_password (u : json) : json :=
  match u with
  | JObj props => JObj (delete "password" props)
  | _ => u
  end.

Definition carries_password (u : json) : bool :=
  bool_decide (is_Some (optional_prop u "password")).

(** ** Local validation in [register] *)

Definition is_digit (c : N) : Prop := (48 <= c <= 57)%N.

(** A Chinese character, U+4E00 to U+9FA5. *)
Definition is_chinese (c : N) : Prop := (19968 <= c <= 40869)%N.

Definition chinese_name (s : jsstring) : Prop := s <> [] /\ Forall is_chinese s.

(** A class number: a positive decimal numeral. *)
Definition class_number (s : jsstring) : Prop :=
  exists d ds, s = d :: ds /\ (49 <= d <= 57)%N /\ Forall is_digit ds.

(** [<year>届<N><mark><Chinese name>], the year being 2020 to 2029 and the
    mark one of [marks]. *)
Definition student_name_with (marks : jsstring) (s : jsstring) : Prop :=
  exists y n c name,
    s = u16 "202" ++ [y] ++ u16 "届" ++ n ++ [c] ++ name
    /\ is_digit y /\ class_number n /\ In c marks /\ chinese_name name.

(** The pattern of the specification: the mark is 班. *)
Definition student_name_spec : jsstring -> Prop := student_name_with (u16 "班").

(** The pattern with both spellings of the mark, 班 and 級. *)
Definition student_name : jsstring -> Prop := student_name_with (u16 "班級").

(** An 11-digit mainland mobile number: 1, then 3 to 9, then nine digits. *)
Definition cn_mobile (s : jsstring) : Prop :=
  exists d rest,
    s = u16 "1" ++ d :: rest
    /\ (51 <= d <= 57)%N /\ length rest = 9 /\ Forall is_digit rest.

(** Some record of the roster has this phone. *)
Definition phone_registered (phone : jsstring) (items : list json) : Prop :=
  Exists (fun u => strict_eq_str (optional_prop u "phone") phone = true) items.

(** The four errors [register] raises on purpose. *)
Definition validation_error (e : thrown) : Prop :=
  e = student_format_error \/ e = teacher_format_error
  \/ e = phone_format_error \/ e = phone_taken_error.

Definition raises_validation_error (r : completion bool * world) : Prop :=
  exists e w1, r = (Throw e, w1) /\ validation_error e.

(** Local validation fails, the student pattern being [pattern]. *)
Definition invalid_with (pattern : jsstring -> Prop) (userType : UserType)
    (username phone : jsstring) (items : list json) : Prop :=
  (userType = student /\ ~ pattern username)
  \/ (userType = teacher /\ ~ chinese_name username)
  \/ ~ cn_mobile phone
  \/ phone_registered phone items.

(** The state after a local registration: the record is appended to the
    roster, and the record without its password is the session user. *)
Definition registered (env : Env) (w : world)
    (phone username password : jsstring) (userType : UserType) : world :=
  let record := newUser env phone username password userType in
  World (<["currentUser" := TextOf (JObj (delete "password" record))]>
           (<["users" := TextOf (JArr (roster w ++ [JObj record]))]>
              (localStorage w)))
        true (JObj (delete "password" record)).

(** C5 as the specification words it. *)
Definition register_validates (env : Env) (phone username password : jsstring)
    (userType : UserType) (w : world) : Prop :=
  forall result,
    userApi_register env phone username password (userType_string userType) w
    = (Normal result, w) ->
    remote_ok result = false ->
    (raises_validation_error (register env phone username password userType w)
     <-> invalid_with student_name_spec userType username phone (roster w))
    /\ (~ invalid_with student_name_spec userType username phone (roster w) ->
        register env phone username password userType w
        = (Normal true, registered env w phone username password userType)).

(** A roster [register] can read: the key is absent, holds the empty string,
    or holds an array without [null] entries. *)
Definition readable_roster (w : world) : Prop :=
  match localStorage w !! "users" with
  | None | Some EmptyText => True
  | Some (TextOf (JArr items)) => Forall (fun u => u <> JNull) items
  | _ => False
  end.

(** The name test of [register] and the error it raises, per user type. *)
Definition name_ok (userType : UserType) (username : jsstring) : bool :=
  match userType with
  | student => Regex.test studentNameRegex username
  | teacher => Regex.test teacherNameRegex username
  end.

Definition name_error (userType : UserType) : thrown :=
  match userType with
  | student => student_format_error
  | teacher => teacher_format_error
  end.

(** ** Scenarios *)

(** A remote side that knows one account: it answers with the account when
    the body of the request carries its phone and password, and with a
    failure envelope otherwise. *)
Definition knows (phone password : jsstring) (account : json)
  : jsstring -> RequestInit -> fetch_result :=
  fun _ init =>
    match body init with
    | Some (TextOf (JObj props)) =>
      if strict_eq_str (props !! "phone") phone
         && strict_eq_str (props !! "password") password
      then Resolved (Resp 200 (JsonBody (Envelope true (Some account) None)))
      else Resolved (Resp 200 (JsonBody (failure (u16 "invalid credentials"))))
    | _ => Resolved (Resp 400 (NotJson SyntaxError))
    end.

Definition account_props : gmap string json :=
  {[ "id" := JStr (u16 "u-7"); "username" := JStr (u16 "张三");
     "phone" := JStr (u16 "13800138001"); "role" := JStr (u16 "user") ]}.

(** The account as the remote side returns it, and as the local roster
    holds it, with a password of its own. *)
Definition remote_account : json := JObj account_props.
Definition local_account : json :=
  JObj (<["password" := JStr (u16 "local-pw")]> account_props).

Definition with_local_account : world :=
  World {[ "users" := TextOf (JArr [local_account]) ]} false JNull.

(** A server answer to [login] that carries the password. *)
Definition leaky_user : json :=
  JObj {[ "id" := JStr (u16 "u-7"); "username" := JStr (u16 "张三");
          "phone" := JStr (u16 "13800138001"); "role" := JStr (u16 "user");
          "password" := JStr (u16 "pw") ]}.


(** ** Further vocabulary *)

(** The page after a reload: the store is kept, the React cells start anew. *)
Definition reloaded (w : world) : world := World (localStorage w) false JNull.

(** The state [logout] leaves behind a state [w]. *)
Definition signed_out (w : world) : world :=
  World (delete "currentUser" (localStorage w)) false JNull.

(** The phone of a record, when it has one that is a string. *)
Definition phone_of (u : json) : option jsstring :=
  match optional_prop u "phone" with
  | Some (JStr p) => Some p
  | _ => None
  end.

Definition phones (items : list json) : list jsstring := omap phone_of items.

(** [JSON.parse (JSON.stringify v)]: the encoder writes [null] for a number
    that is not finite and [0] for either zero; every other number, and
    every string, is written so that it reads back as it was. *)
Definition number_roundtrip (x : float) : json :=
  match classify x with
  | NaN | PInf | NInf => JNull
  | PZero | NZero => JNum 0%float
  | _ => JNum x
  end.

Fixpoint JSON_roundtrip (v : json) : json :=
  match v with
  | JNum x => number_roundtrip x
  | JArr items => JArr (map JSON_roundtrip items)
  | JObj props => JObj (JSON_roundtrip <$> props)
  | JNull | JBool _ | JStr _ => v
  end.

(** The values encoding preserves: on these, writing a value and reading
    it back gives the value itself. *)
Definition json_stable (v : json) : Prop := JSON_roundtrip v = v.

(* ===================================================================== *)
(** * Proofs *)
(* ===================================================================== *)

(** String literals stay folded in the proofs; they are evaluated where a
    proof runs the code. *)
#[local] Arguments u16 : simpl never.
#[local] Opaque u16.

(** Unfolding of the monad. *)
Ltac run_monad :=
  unfold mbind, mret, M_bind, M_ret, completion_bind, completion_ret,
    bind, ret, throw, try_catch, lift, cbind in *.

(* ===================================================================== *)
(** * The matcher decides the language of a pattern *)
(* ===================================================================== *)

Section RegexFacts.
Import Regex.

Lemma nullable_lang r : nullable r = true <-> lang r [].
Proof.
  induction r as [| |c|lo hi|r1 IH1 r2 IH2|r1 IH1 r2 IH2|r1 IH1]; cbn.
  - split; [discriminate|tauto].
  - tauto.
  - split; discriminate.
  - split; [discriminate|]. intros (c & Hc & _). discriminate Hc.
  - rewrite orb_true_iff. tauto.
  - rewrite andb_true_iff, IH1, IH2. split.
    + intros [H1 H2]. by exists [], [].
    + intros (s1 & s2 & Hs & H1 & H2).
      symmetry in Hs. apply app_eq_nil in Hs as [-> ->]. tauto.
  - split; [|done]. intros _. exists []. split; [done|constructor].
Qed.

Lemma lang_star_cons r c s :
  lang (Star r) (c :: s)
  <-> exists s1 s2, s = s1 ++ s2 /\ lang r (c :: s1) /\ lang (Star r) s2.
Proof.
  split.
  - intros (ss & Hs & Hall).
    induction Hall as [|x ss Hx Hall IH]; [discriminate|].
    destruct x as [|d x]; [by apply IH|].
    cbn in Hs. injection Hs as <- ->.
    exists x, (concat ss). split; [done|]. split; [done|]. by exists ss.
  - intros (s1 & s2 & -> & H1 & ss & -> & Hall).
    exists ((c :: s1) :: ss). split; [done|]. by constructor.
Qed.

Lemma deriv_lang c r s : lang (deriv c r) s <-> lang r (c :: s).
Proof.
  revert s.
  induction r as [| |d|lo hi|r1 IH1 r2 IH2|r1 IH1 r2 IH2|r1 IH1]; intros s.
  - done.
  - cbn. split; [done|discriminate].
  - cbn [deriv]. destruct (N.eqb_spec c d) as [->|Hne]; cbn.
    + split; [by intros ->|by intros [= ->]].
    + split; [done|]. intros [= ? ?]. done.
  - cbn [deriv].
    destruct ((lo <=? c)%N && (c <=? hi)%N) eqn:Hin; cbn.
    + apply andb_true_iff in Hin as [H1 H2].
      apply N.leb_le in H1, H2. split.
      * intros ->. by exists c.
      * intros (d & [= -> ->] & _). done.
    + split; [done|]. intros (d & [= <- ->] & H1 & H2).
      apply N.leb_le in H1, H2. by rewrite H1, H2 in Hin.
  - cbn. by rewrite IH1, IH2.
  - assert (Hleft : lang (Cat (deriv c r1) r2) s
              <-> exists s1 s2, s = s1 ++ s2 /\ lang r1 (c :: s1) /\ lang r2 s2).
    { cbn. split; intros (s1 & s2 & Hs & H1 & H2); exists s1, s2;
        (split; [done|]); (split; [by apply IH1|done]). }
    cbn [deriv]. destruct (nullable r1) eqn:Hn.
    + change (lang (Alt ?a ?b) s) with (lang a s \/ lang b s).
      rewrite Hleft, IH2. cbn [lang]. split.
      * intros [(s1 & s2 & -> & H1 & H2)|H2].
        -- by exists (c :: s1), s2.
        -- exists [], (c :: s). split; [done|]. split; [|done].
           by apply nullable_lang.
      * intros (s1 & s2 & Hs & H1 & H2). destruct s1 as [|d s1].
        -- cbn in Hs. subst s2. by right.
        -- injection Hs as <- ->. left. by exists s1, s2.
    + rewrite Hleft. cbn [lang]. split.
      * intros (s1 & s2 & -> & H1 & H2). by exists (c :: s1), s2.
      * intros (s1 & s2 & Hs & H1 & H2). destruct s1 as [|d s1].
        -- apply nullable_lang in H1. congruence.
        -- injection Hs as <- ->. by exists s1, s2.
  - rewrite lang_star_cons. cbn [deriv].
    change (lang (Cat ?a ?b) s)
      with (exists s1 s2, s = s1 ++ s2 /\ lang a s1 /\ lang b s2).
    split; intros (s1 & s2 & Hs & H1 & H2); exists s1, s2;
      (split; [done|]); (split; [by apply IH1|done]).
Qed.

Lemma matches_lang r s : matches r s = true <-> lang r s.
Proof.
  revert r. induction s as [|c s IH]; intros r; cbn [matches].
  - apply nullable_lang.
  - rewrite IH. apply deriv_lang.
Qed.

(** The languages of the pattern forms [register] uses. *)
Lemma lang_Lit l s : lang (Lit l) s <-> s = l.
Proof.
  revert s. induction l as [|c l IH]; intros s; [done|]. cbn. split.
  - intros (s1 & s2 & -> & -> & H2). apply IH in H2. by subst.
  - intros ->. exists [c], l. split; [done|]. split; [done|]. by apply IH.
Qed.

Lemma lang_Class members s : lang (Class members) s <-> exists c, s = [c] /\ In c members.
Proof.
  induction members as [|d members IH]; cbn.
  - split; [done|]. by intros (c & _ & []).
  - rewrite IH. split.
    + intros [->|(c & -> & Hc)]; [exists d|exists c]; tauto.
    + intros (c & -> & [->|Hc]); [by left|right; by exists c].
Qed.

Lemma lang_Star_Range lo hi s :
  lang (Star (Range lo hi)) s <-> Forall (fun c => (lo <= c <= hi)%N) s.
Proof.
  split.
  - intros (ss & -> & Hall). induction Hall as [|x ss (c & -> & Hc) _ IH]; cbn.
    + constructor.
    + by constructor.
  - intros Hall. induction Hall as [|c s Hc _ (ss & -> & Hss)].
    + exists []. split; [done|constructor].
    + exists ([c] :: ss). split; [done|]. constructor; [by exists c|done].
Qed.

Lemma lang_Plus_Range lo hi s :
  lang (Plus (Range lo hi)) s <-> s <> [] /\ Forall (fun c => (lo <= c <= hi)%N) s.
Proof.
  unfold Plus.
  change (lang (Cat ?a ?b) s)
    with (exists s1 s2, s = s1 ++ s2 /\ lang a s1 /\ lang b s2).
  split.
  - intros (s1 & s2 & -> & (c & -> & Hc) & H2). apply lang_Star_Range in H2.
    split; [done|]. by constructor.
  - intros [Hne Hall]. destruct Hall as [|c s Hc Hall]; [done|].
    exists [c], s. split; [done|]. split; [by exists c|by apply lang_Star_Range].
Qed.

Lemma lang_Repeat_Range n lo hi s :
  lang (Repeat n (Range lo hi)) s
  <-> length s = n /\ Forall (fun c => (lo <= c <= hi)%N) s.
Proof.
  revert s. induction n as [|n IH]; intros s; cbn [Repeat].
  - cbn. split; [by intros ->|]. intros [Hl _]. by destruct s.
  - change (lang (Cat ?a ?b) s)
      with (exists s1 s2, s = s1 ++ s2 /\ lang a s1 /\ lang b s2).
    split.
    + intros (s1 & s2 & -> & (c & -> & Hc) & H2). apply IH in H2 as [<- H2].
      split; [done|by constructor].
    + intros [Hl Hall]. destruct Hall as [|c s Hc Hall]; [done|].
      exists [c], s. split; [done|]. split; [by exists c|].
      apply IH. split; [by injection Hl|done].
Qed.

End RegexFacts.

Section Patterns.
Import Regex.

Lemma studentNameRegex_eq :
  studentNameRegex
  = Cat (Lit [50; 48; 50]%N)
   (Cat (Range 48 57)
   (Cat (Lit [23626%N])
   (Cat (Range 49 57)
   (Cat (Star (Range 48 57))
   (Cat (Class [29677; 124; 32026]%N)
        (Plus (Range 19968 40869))))))).
Proof. vm_compute. reflexivity. Qed.

Lemma phoneRegex_eq :
  phoneRegex = Cat (Lit [49%N]) (Cat (Range 51 57) (Repeat 9 (Range 48 57))).
Proof. vm_compute. reflexivity. Qed.

Lemma student_name_with_eq marks s :
  student_name_with marks s
  <-> exists y n c name,
        s = [50; 48; 50]%N ++ [y] ++ [23626%N] ++ n ++ [c] ++ name
        /\ is_digit y /\ class_number n /\ In c marks /\ chinese_name name.
Proof.
  unfold student_name_with.
  replace (u16 "202") with [50; 48; 50]%N by (vm_compute; reflexivity).
  replace (u16 "届") with [23626%N] by (vm_compute; reflexivity).
  reflexivity.
Qed.

Lemma lang_Cat r1 r2 s :
  lang (Cat r1 r2) s <-> exists s1 s2, s = s1 ++ s2 /\ lang r1 s1 /\ lang r2 s2.
Proof. reflexivity. Qed.

Lemma lang_Range lo hi s :
  lang (Range lo hi) s <-> exists c, s = [c] /\ (lo <= c <= hi)%N.
Proof. reflexivity. Qed.

(** What [studentNameRegex] accepts: the mark may be 班, 級 or a bar. *)
Lemma studentNameRegex_test s :
  test studentNameRegex s = true
  <-> student_name_with [29677; 124; 32026]%N s.
Proof.
  unfold test. rewrite matches_lang, studentNameRegex_eq, student_name_with_eq.
  split.
  - intros (s1 & t1 & -> & H1 & s2 & t2 & -> & (y & -> & Hy)
            & s3 & t3 & -> & H3 & s4 & t4 & -> & (d & -> & Hd)
            & s5 & t5 & -> & H5 & s6 & t6 & -> & H6 & H7).
    apply lang_Lit in H1, H3. subst s1 s3.
    apply lang_Star_Range in H5. apply lang_Class in H6 as (c & -> & Hc).
    apply lang_Plus_Range in H7.
    exists y, (d :: s5), c, t6. split; [done|]. split; [done|].
    split; [by exists d, s5|]. done.
  - intros (y & n & c & name & -> & Hy & (d & ds & -> & Hd & Hds) & Hc & Hname).
    exists [50; 48; 50]%N, ([y] ++ [23626%N] ++ (d :: ds) ++ [c] ++ name).
    split; [done|]. split; [by apply lang_Lit|].
    exists [y], ([23626%N] ++ (d :: ds) ++ [c] ++ name).
    split; [done|]. split; [by exists y|].
    exists [23626%N], ((d :: ds) ++ [c] ++ name).
    split; [done|]. split; [by apply lang_Lit|].
    exists [d], (ds ++ [c] ++ name).
    split; [done|]. split; [by exists d|].
    exists ds, ([c] ++ name).
    split; [done|]. split; [by apply lang_Star_Range|].
    exists [c], name.
    split; [done|]. split; [apply lang_Class; by exists c|].
    by apply lang_Plus_Range.
Qed.

Lemma teacherNameRegex_test s :
  test teacherNameRegex s = true <-> chinese_name s.
Proof.
  unfold test, teacherNameRegex, cjk. rewrite matches_lang.
  apply lang_Plus_Range.
Qed.

Lemma phoneRegex_test s : test phoneRegex s = true <-> cn_mobile s.
Proof.
  unfold test, cn_mobile. rewrite matches_lang, phoneRegex_eq.
  replace (u16 "1") with [49%N] by (vm_compute; reflexivity).
  split.
  - intros (s1 & t1 & -> & H1 & s2 & t2 & -> & (d & -> & Hd) & H3).
    apply lang_Lit in H1 as ->. apply lang_Repeat_Range in H3 as [Hl Hall].
    by exists d, t2.
  - intros (d & rest & -> & Hd & Hl & Hall).
    exists [49%N], (d :: rest). split; [done|]. split; [by apply lang_Lit|].
    exists [d], rest. split; [done|]. split; [by exists d|].
    by apply lang_Repeat_Range.
Qed.

(** Without a bar in the name, the pattern of the code and the pattern with
    the two spellings of the mark accept the same names. *)
Lemma student_name_no_bar s :
  ~ In 124%N s ->
  (test studentNameRegex s = true <-> student_name s).
Proof.
  intros Hbar. rewrite studentNameRegex_test.
  unfold student_name.
  replace (u16 "班級") with [29677; 32026]%N by (vm_compute; reflexivity).
  rewrite !student_name_with_eq.
  split; intros (y & n & c & name & -> & Hy & Hn & Hc & Hname);
    exists y, n, c, name; (split; [done|]); (split; [done|]);
    (split; [done|]); (split; [|done]).
  - destruct Hc as [<-|[<-|[<-|[]]]]; [by left| |by right; left].
    exfalso. apply Hbar. rewrite !in_app_iff. cbn. tauto.
  - destruct Hc as [<-|[<-|[]]]; cbn; tauto.
Qed.

(** A name the specification's pattern accepts contains the mark 班. *)
Lemma student_name_spec_mark s : student_name_spec s -> In 29677%N s.
Proof.
  unfold student_name_spec.
  replace (u16 "班") with [29677%N] by (vm_compute; reflexivity).
  rewrite student_name_with_eq.
  intros (y & n & c & name & -> & _ & _ & [<-|[]] & _).
  rewrite !in_app_iff. cbn. tauto.
Qed.

End Patterns.

(* ===================================================================== *)
(** * Properties of the resource modules *)
(* ===================================================================== *)

Lemma apiRequest_reply env endpoint options w :
  apiRequest env endpoint options w
  = (Normal (reply env (fetch env (sent_url env endpoint) (sent_init options))), w).
Proof.
  unfold apiRequest, await_fetch, response_json, reply, reported,
    sent_url, sent_init, request_failed.
  run_monad.
  destruct (fetch env _ _) as [resp|fault];
    [|destruct (DEV env); reflexivity].
  destruct (ok resp); cbn [negb];
    [|destruct (DEV env); reflexivity].
  destruct (json_body resp);
    [reflexivity|destruct (DEV env); reflexivity].
Qed.

Lemma from_cache_spec key w :
  from_cache key w
  = (Normal match localStorage w !! key with
            | Some (TextOf v) => Some (Envelope true (Some v) None)
            | _ => None
            end, w).
Proof.
  unfold from_cache, getItem. run_monad.
  destruct (localStorage w !! key) as [[v| |]|]; reflexivity.
Qed.

Lemma run_read_spec env op w :
  run_read env op w
  = (Normal
       (let result := reply env (fetch env (sent_url env (read_endpoint op))
                                       (sent_init no_options)) in
        if success result then result
        else match localStorage w !! read_key op with
             | Some (TextOf v) => Envelope true (Some v) None
             | _ => result
             end), w).
Proof.
  destruct op; cbn [run_read read_endpoint read_key];
    unfold getSubmittedWorks, getFeaturedWorks, getMessages, getActivities,
      getKnowledgeItems;
    unfold mbind, M_bind, bind; rewrite apiRequest_reply; cbv zeta;
    (destruct (success (reply env _)); cbn [negb];
     [ reflexivity
     | rewrite from_cache_spec; unfold mret, M_ret, ret, or_result;
       by destruct (localStorage w !! _) as [[]|] ]).
Qed.

Lemma run_write_spec env op w :
  run_write env op w
  = (Normal (reply env (fetch env (sent_url env (write_endpoint op))
                              (sent_init (write_options op)))), w).
Proof.
  destruct op; cbn [run_write write_endpoint write_options];
    unfold submitWork, postMessage, vote; by rewrite apiRequest_reply.
Qed.

(** A failed call gives a failure envelope. *)
Lemma reply_of_failed_call env outcome :
  call_fails outcome -> success (reply env outcome) = false.
Proof.
  unfold reply. destruct outcome as [resp|fault]; [|done]. cbn.
  destruct (ok resp); [|done]. intros [?|Hbody]; [done|].
  by destruct (json_body resp).
Qed.

(** C1 (read fallback).  For each of the five read operations: when the
    remote call gives a failure envelope and the operation's key holds the
    text of a cached value [v], the operation returns
    [{success: true, data: v}] (in particular after that value was written
    there); when the key holds no cached value, it returns the failure
    envelope unchanged.  The store is left as it was. *)
Theorem read_fallback env (op : read_op) (w : world) (result : ApiResponse) :
  apiRequest env (read_endpoint op) no_options w = (Normal result, w) ->
  success result = false ->
  (forall v, localStorage w !! read_key op = Some (TextOf v) ->
     run_read env op w = (Normal (Envelope true (Some v) None), w))
  /\ (forall v st auth u,
        w = World (<[read_key op := JSON_stringify v]> st) auth u ->
        run_read env op w = (Normal (Envelope true (Some v) None), w))
  /\ ((forall v, localStorage w !! read_key op <> Some (TextOf v)) ->
      run_read env op w = (Normal result, w)).
Proof.
  intros Hreq Hfail. rewrite apiRequest_reply in Hreq.
  injection Hreq as Hreq. rewrite run_read_spec. cbv zeta.
  rewrite Hreq, Hfail.
  assert (Hhit : forall v, localStorage w !! read_key op = Some (TextOf v) ->
     (Normal match localStorage w !! read_key op with
             | Some (TextOf v0) => Envelope true (Some v0) None
             | _ => result
             end, w) = (Normal (Envelope true (Some v) None), w)).
  { intros v Hv. by rewrite Hv. }
  split; [exact Hhit|]. split.
  - intros v st auth u ->. apply Hhit. cbn. apply lookup_insert_eq.
  - intros Hnone. destruct (localStorage w !! read_key op) as [[v| |]|] eqn:E; try done.
    by destruct (Hnone v).
Qed.

Lemma read_fallback_witness :
  let env := page false unreachable in
  let w := World {[ "messages" := TextOf (JArr [JStr (u16 "hello")]) ]} false JNull in
  run_read env GetMessages w
  = (Normal (Envelope true (Some (JArr [JStr (u16 "hello")])) None), w)
  /\ run_read env GetMessages fresh
     = (Normal (failure (u16 "Failed to fetch")), fresh).
Proof.
  split.
  - apply (read_fallback (page false unreachable) GetMessages _
             (failure (u16 "Failed to fetch"))); reflexivity.
  - apply (read_fallback (page false unreachable) GetMessages fresh
             (failure (u16 "Failed to fetch"))); [reflexivity|reflexivity|].
    intros v. cbn. by rewrite lookup_empty.
Defined.

(** C2 (write asymmetry).  For [submitWork], [postMessage] and [vote]: when
    the remote call the operation makes (its endpoint, with the options it
    sends) fails, by a transport fault, a non-success status, an
    undecodable body or a failure envelope, the operation returns normally
    an envelope with [success = false], and the whole state, every key of
    the local store included, is what it was before the call.  Nothing is
    asked of the answers the remote side gives to other requests. *)
Theorem write_has_no_fallback env (op : write_op) (w : world) :
  call_fails (fetch env (sent_url env (write_endpoint op))
                    (sent_init (write_options op))) ->
  exists r, run_write env op w = (Normal r, w) /\ success r = false.
Proof.
  intros Hfail. rewrite run_write_spec. eexists; split; [reflexivity|].
  by apply reply_of_failed_call.
Qed.

Lemma write_has_no_fallback_witness :
  let env := page false (refuses (u16 "/api/voting/activities/spring/vote")) in
  let w := World {[ "messages" := TextOf (JArr []) ]} true JNull in
  exists r, run_write env (Vote (u16 "spring") 7%float) w = (Normal r, w)
            /\ success r = false.
Proof.
  apply (write_has_no_fallback
           (page false (refuses (u16 "/api/voting/activities/spring/vote")))
           (Vote (u16 "spring") 7%float)).
  vm_compute. right. reflexivity.
Defined.

(** The envelopes the client builds itself keep the invariant. *)
Lemma failure_invariant message : envelope_invariant (failure message).
Proof. split; [discriminate|reflexivity]. Qed.

Lemma reply_invariant env url init :
  server_keeps_invariant env -> envelope_invariant (reply env (fetch env url init)).
Proof.
  intros Hsrv. unfold reply.
  destruct (fetch env url init) as [resp|fault] eqn:E; [|apply failure_invariant].
  destruct (ok resp) eqn:Hok; [|apply failure_invariant].
  destruct (json_body resp) eqn:Hb; [|apply failure_invariant].
  by eapply Hsrv.
Qed.

(** C6, refuted as worded: a server that answers [{success: true}] with no
    data has its answer handed on as it is. *)
Lemma envelope_invariant_counterexample :
  ~ returns_valid_envelope
      (page false (answers 200 (Envelope true None None)))
      (Read GetSubmittedWorks) fresh.
Proof.
  intros H.
  destruct (H (Envelope true None None) fresh eq_refl) as [Hdata _].
  destruct (Hdata eq_refl) as [v Hv]. discriminate Hv.
Qed.

(** C6 (envelope invariant), amended.  Provided the bodies the server sends
    with a success status keep the invariant, every operation of the
    resource modules returns normally, and the envelope it returns has data
    when [success = true] and none when [success = false]. *)
Theorem envelope_invariant_kept env (op : operation) (w : world) :
  server_keeps_invariant env ->
  exists r, run env op w = (Normal r, w) /\ envelope_invariant r.
Proof.
  intros Hsrv. destruct op as [r|wr|phone password|phone username password ut|];
    cbn [run].
  - rewrite run_read_spec. eexists; split; [reflexivity|]. cbv zeta.
    destruct (success (reply env _)); [by apply reply_invariant|].
    destruct (localStorage w !! read_key r) as [[v| |]|];
      try by apply reply_invariant.
    split; [by eexists|discriminate].
  - rewrite run_write_spec. eexists; split; [reflexivity|]. by apply reply_invariant.
  - unfold userApi_login. rewrite apiRequest_reply.
    eexists; split; [reflexivity|]. by apply reply_invariant.
  - unfold userApi_register. rewrite apiRequest_reply.
    eexists; split; [reflexivity|]. by apply reply_invariant.
  - unfold getCurrentUser. rewrite apiRequest_reply.
    eexists; split; [reflexivity|]. by apply reply_invariant.
Qed.

Lemma envelope_invariant_kept_witness :
  let env := page false (answers 200 (Envelope true (Some (JArr [])) None)) in
  exists r, run env (Read GetFeaturedWorks) fresh = (Normal r, fresh)
            /\ envelope_invariant r.
Proof.
  apply (envelope_invariant_kept
           (page false (answers 200 (Envelope true (Some (JArr [])) None)))).
  intros url init resp payload Hf _ Hb. cbn in Hf. injection Hf as <-.
  cbn in Hb. injection Hb as <-. split; [by eexists|discriminate].
Defined.

(** C7, refuted as worded: in a development build a status 500 is reported
    as "service unavailable", not as "API request failed: 500". *)
Lemma status_message_counterexample :
  ~ status_is_reported (page true (answers 500 (Envelope false None None)))
      (u16 "messages") no_options fresh.
Proof.
  intros H. specialize (H _ eq_refl eq_refl).
  rewrite apiRequest_reply in H. vm_compute in H. discriminate H.
Qed.

(** C7 (failures are values), amended.  [apiRequest] never raises and never
    touches the state: it returns an envelope for every outcome of the
    network call.  Outside development builds a non-success status gives
    [{success: false, error: "API请求失败: <status>"}] and a transport fault
    gives [{success: false}] with the fault's message, or "未知错误" when the
    fault is not an [Error]; in a development build every such failure
    gives [{success: false, error: "API服务不可用，正在使用本地存储"}].  A body
    that cannot be decoded is reported like a transport fault. *)
Theorem apiRequest_never_raises env endpoint options w :
  exists r,
    apiRequest env endpoint options w = (Normal r, w) /\
    let outcome := fetch env (sent_url env endpoint) (sent_init options) in
    (forall resp, outcome = Resolved resp -> ok resp = false ->
       r = failure (if DEV env then service_unavailable
                    else request_failed (status resp))) /\
    (forall fault, outcome = Rejected fault ->
       r = failure (if DEV env then service_unavailable
                    else match fault with
                         | ErrorObject message => message
                         | NonError _ => unknown_error
                         end)) /\
    (forall resp fault, outcome = Resolved resp -> ok resp = true ->
       json_body resp = NotJson fault ->
       r = failure (if DEV env then service_unavailable
                    else match fault with
                         | ErrorObject message => message
                         | NonError _ => unknown_error
                         end)) /\
    (forall resp payload, outcome = Resolved resp -> ok resp = true ->
       json_body resp = JsonBody payload -> r = payload).
Proof.
  rewrite apiRequest_reply. eexists; split; [reflexivity|]. cbv zeta.
  unfold reply, reported.
  repeat split.
  - intros resp -> ->. reflexivity.
  - intros fault ->. reflexivity.
  - intros resp fault -> -> ->. reflexivity.
  - intros resp payload -> -> ->. reflexivity.
Qed.

(* ===================================================================== *)
(** * Properties of the session manager *)
(* ===================================================================== *)

Lemma safeLocalStorageGet_spec key fallback w :
  safeLocalStorageGet key fallback w
  = (Normal match localStorage w !! key with
            | Some (TextOf v) => v
            | _ => fallback
            end, w).
Proof.
  unfold safeLocalStorageGet, getItem. run_monad.
  by destruct (localStorage w !! key) as [[v| |]|].
Qed.

Lemma safeLocalStorageSet_spec key v w :
  safeLocalStorageSet key v w
  = (Normal true, World (<[key := TextOf v]> (localStorage w))
                        (isAuthenticated w) (user w)).
Proof. reflexivity. Qed.

Lemma some_items_app f l1 l2 :
  some_items f (l1 ++ l2)
  = match some_items f l1 with
    | Normal false => some_items f l2
    | r => r
    end.
Proof.
  induction l1 as [|x l1 IH]; cbn.
  - by destruct (some_items f l2) as [[]|].
  - destruct (f x) as [[]|]; [done|exact IH|done].
Qed.

Lemma is_default_admin_record u :
  u <> JNull -> is_default_admin u = Normal (is_admin_record u).
Proof.
  intros Hu. unfold is_default_admin, is_admin_record. run_monad.
  destruct u; try done; cbn.
  destruct (strict_eq_str (props !! "role") (u16 "admin")); reflexivity.
Qed.

Lemma some_items_admin l :
  Forall (fun u => u <> JNull) l ->
  some_items is_default_admin l = Normal (existsb is_admin_record l).
Proof.
  induction 1 as [|u l Hu _ IH]; [done|]. cbn.
  rewrite is_default_admin_record by done.
  destruct (is_admin_record u); [done|exact IH].
Qed.

Lemma admin_record_is_admin env : is_default_admin (admin_record env) = Normal true.
Proof. reflexivity. Qed.

Lemma ensureAdminExists_spec env w :
  ensureAdminExists env w
  = (Normal tt,
     match stored_users w with
     | JArr items =>
       match some_items is_default_admin items with
       | Normal false => with_users w (items ++ [admin_record env])
       | _ => w
       end
     | _ => w
     end).
Proof.
  unfold ensureAdminExists. unfold try_catch at 1.
  unfold mbind at 1, M_bind, bind at 1. rewrite safeLocalStorageGet_spec.
  fold (stored_users w). run_monad.
  destruct (stored_users w) as [| | | |items|]; try reflexivity.
  cbn [array_some]. destruct (some_items is_default_admin items) as [[]|]; reflexivity.
Qed.

Lemma stored_users_with_users w items : stored_users (with_users w items) = JArr items.
Proof. unfold stored_users, with_users. cbn. by rewrite lookup_insert_eq. Qed.

Lemma roster_with_users w items : roster (with_users w items) = items.
Proof. unfold roster, with_users. cbn. by rewrite lookup_insert_eq. Qed.

Lemma roster_stored_users w :
  roster w = match stored_users w with JArr items => items | _ => [] end.
Proof.
  unfold roster, stored_users.
  by destruct (localStorage w !! "users") as [[[]| |]|].
Qed.

(** A second run changes nothing, whatever the first one found. *)
Lemma ensureAdminExists_idempotent env w :
  initialized env 2 w = initialized env 1 w.
Proof.
  cbn [initialized]. rewrite (ensureAdminExists_spec env w). cbn [snd].
  destruct (stored_users w) as [| | | |items|] eqn:E;
    try (rewrite ensureAdminExists_spec, E; reflexivity).
  destruct (some_items is_default_admin items) as [[]|] eqn:Es;
    try (rewrite ensureAdminExists_spec, E, Es; reflexivity).
  rewrite ensureAdminExists_spec, stored_users_with_users, some_items_app, Es.
  cbn [some_items]. by rewrite admin_record_is_admin.
Qed.

Lemma admin_count_with_users w items :
  admin_count (with_users w items) = length (List.filter is_admin_record items).
Proof. unfold admin_count. by rewrite roster_with_users. Qed.

Lemma filter_none {A} (f : A -> bool) l :
  existsb f l = false -> List.filter f l = [].
Proof.
  induction l as [|x l IH]; [done|]. cbn.
  destruct (f x); [done|exact IH].
Qed.

Lemma filter_some {A} (f : A -> bool) l :
  existsb f l = true -> 1 <= length (List.filter f l).
Proof.
  induction l as [|x l IH]; [done|]. cbn.
  destruct (f x); cbn; [lia|exact IH].
Qed.

(** One run from a usable roster with at most one administrator. *)
Lemma ensureAdminExists_heals env w :
  usable_roster w -> admin_count w <= 1 ->
  let w1 := snd (ensureAdminExists env w) in
  usable_roster w1 /\ admin_count w1 = 1.
Proof.
  intros Hu Hc. cbv zeta. rewrite ensureAdminExists_spec. cbn [snd].
  assert (Hadd : forall items,
    Forall (fun u => u <> JNull) items -> existsb is_admin_record items = false ->
    usable_roster (with_users w (items ++ [admin_record env]))
    /\ admin_count (with_users w (items ++ [admin_record env])) = 1).
  { intros items Hnn Hex. split.
    - unfold usable_roster, with_users. cbn. rewrite lookup_insert_eq.
      apply Forall_app. split; [done|]. by repeat constructor.
    - rewrite admin_count_with_users, List.filter_app, filter_none by done.
      reflexivity. }
  unfold usable_roster in Hu. unfold admin_count, roster in Hc.
  unfold stored_users.
  destruct (localStorage w !! "users") as [[v| |]|] eqn:E.
  - destruct v as [| | | |items|]; try done.
    rewrite some_items_admin by done.
    destruct (existsb is_admin_record items) eqn:Hex.
    + split; [unfold usable_roster; by rewrite E|].
      unfold admin_count, roster. rewrite E.
      apply filter_some in Hex. lia.
    + by apply Hadd.
  - apply (Hadd []); [constructor|done].
  - apply (Hadd []); [constructor|done].
  - apply (Hadd []); [constructor|done].
Qed.

Lemma null_or_not (x : json) : x = JNull \/ x <> JNull.
Proof. destruct x; (by left) || (by right). Qed.

(** A scan that ends without finding an administrator has seen none. *)
Lemma some_items_none f l :
  some_items f l = Normal false -> Forall (fun u => f u = Normal false) l.
Proof.
  induction l as [|u l IH]; [constructor|]. cbn.
  destruct (f u) as [[]|] eqn:E; try done. intros H. constructor; [done|by apply IH].
Qed.

Lemma is_default_admin_false u :
  is_default_admin u = Normal false -> is_admin_record u = false.
Proof.
  destruct (null_or_not u) as [->|Hu]; [done|].
  rewrite is_default_admin_record by done. congruence.
Qed.

(** A roster that holds an administrator record is left alone, and so is
    everything else. *)
Lemma ensureAdminExists_present env w :
  1 <= admin_count w -> snd (ensureAdminExists env w) = w.
Proof.
  intros Hc. rewrite ensureAdminExists_spec. cbn [snd].
  unfold admin_count in Hc. rewrite roster_stored_users in Hc.
  destruct (stored_users w) as [| | | |items|]; try reflexivity.
  destruct (some_items is_default_admin items) as [[]|] eqn:Es; try reflexivity.
  apply some_items_none in Es.
  rewrite filter_none in Hc; [cbn in Hc; lia|].
  apply not_true_is_false. intros Hex.
  apply existsb_exists in Hex as (u & Hu & Ha).
  rewrite List.Forall_forall in Es.
  by rewrite (is_default_admin_false u (Es u Hu)) in Ha.
Qed.

(** C3, refuted as worded: a roster that already holds two administrator
    records keeps both, so a run does not leave exactly one. *)
Lemma two_admins_counterexample :
  ~ one_admin_after_each_run (page false unreachable)
      (two_admins (page false unreachable)).
Proof.
  intros H. specialize (H 1 (le_n 1)). vm_compute in H. discriminate H.
Qed.

(** C3 (admin self-healing), amended.  From every state, the routine never
    raises and is idempotent: a second run, and every later one, changes
    nothing.  From every state in which the roster already holds one or
    more administrator records (role [admin] and the reserved phone), no
    run changes anything: a roster with several such records keeps them.
    Starting from a roster that is absent, undecodable, empty, or an array
    of records without [null] holding at most one administrator record,
    the roster holds exactly one administrator record after each of one or
    more runs. *)
Theorem ensureAdminExists_self_healing env (w : world) :
  (forall n, fst (ensureAdminExists env (initialized env n w)) = Normal tt)
  /\ (forall n, 1 <= n -> initialized env n w = initialized env 1 w)
  /\ (1 <= admin_count w -> forall n, initialized env n w = w)
  /\ (usable_roster w -> admin_count w <= 1 ->
      forall n, 1 <= n -> admin_count (initialized env n w) = 1).
Proof.
  split; [|split; [|split]].
  - intros n. by rewrite ensureAdminExists_spec.
  - intros n Hn. induction n as [|n IH]; [lia|].
    destruct n as [|n]; [done|].
    rewrite <- IH by lia.
    change (initialized env (S (S n)) w)
      with (initialized env 2 (initialized env n w)).
    change (initialized env (S n) w)
      with (initialized env 1 (initialized env n w)).
    apply ensureAdminExists_idempotent.
  - intros Hc n. induction n as [|n IH]; [done|].
    cbn [initialized]. rewrite IH. by apply ensureAdminExists_present.
  - intros Hu Hc n Hn.
    assert (Hinv : usable_roster (initialized env n w)
                   /\ admin_count (initialized env n w) = 1); [|by destruct Hinv].
    induction n as [|n IH]; [lia|].
    destruct n as [|n].
    + by apply ensureAdminExists_heals.
    + destruct IH as [IHu IHc]; [lia|].
      cbn [initialized] in *. apply ensureAdminExists_heals; [done|lia].
Qed.

Lemma ensureAdminExists_self_healing_witness :
  let env := page false unreachable in
  (forall n, 1 <= n -> admin_count (initialized env n fresh) = 1)
  /\ (forall n, initialized env n (two_admins env) = two_admins env).
Proof.
  split.
  - apply (ensureAdminExists_self_healing (page false unreachable) fresh).
    + exact I.
    + apply le_0_n.
  - apply (ensureAdminExists_self_healing (page false unreachable)
             (two_admins (page false unreachable))).
    vm_compute. apply le_S, le_n.
Defined.

(** The effect run at mount sets the session from [currentUser] and then
    runs the routine: on the local store it does what the routine does. *)
Lemma ensureAdminExists_store env w1 w2 :
  localStorage w1 = localStorage w2 ->
  localStorage (snd (ensureAdminExists env w1))
  = localStorage (snd (ensureAdminExists env w2)).
Proof.
  intros Hsame. rewrite !ensureAdminExists_spec. cbn [snd].
  unfold stored_users, with_users. rewrite Hsame.
  destruct (localStorage w2 !! "users") as [[[]| |]|];
    try destruct (some_items is_default_admin items) as [[]|];
    cbn [localStorage]; by rewrite ?Hsame.
Qed.

Lemma mount_spec env w :
  mount env w
  = ensureAdminExists env
      match localStorage w !! "currentUser" with
      | Some (TextOf v) => World (localStorage w) true v
      | _ => w
      end.
Proof.
  unfold mount, getItem, setUser, setIsAuthenticated. run_monad.
  by destruct (localStorage w !! "currentUser") as [[v| |]|].
Qed.

Lemma mount_runs_ensureAdminExists env w :
  fst (mount env w) = Normal tt
  /\ localStorage (snd (mount env w))
     = localStorage (snd (ensureAdminExists env w)).
Proof.
  rewrite mount_spec. split; [by rewrite ensureAdminExists_spec|].
  apply ensureAdminExists_store.
  by destruct (localStorage w !! "currentUser") as [[v| |]|].
Qed.

(** ** [login] *)

Lemma userApi_login_reply env phone password w :
  exists result, userApi_login env phone password w = (Normal result, w).
Proof. unfold userApi_login. rewrite apiRequest_reply. by eexists. Qed.

Lemma has_credentials_match phone password u :
  u <> JNull ->
  has_credentials phone password u = Normal (credentials_match phone password u).
Proof.
  intros Hu. unfold has_credentials, credentials_match. run_monad.
  destruct u; try done; cbn.
  destruct (strict_eq_str (props !! "phone") phone); reflexivity.
Qed.

Lemma credentials_match_object phone password u :
  credentials_match phone password u = true -> exists props, u = JObj props.
Proof. destruct u; try discriminate. by eexists. Qed.

Lemma find_items_first_match phone password items u :
  first_match phone password items u ->
  find_items (has_credentials phone password) items = Normal (Some u).
Proof.
  intros (before & after & -> & Hu & Hbefore).
  induction Hbefore as [|x before [Hx Hno] _ IH]; cbn.
  - destruct (credentials_match_object _ _ _ Hu) as [props ->].
    rewrite has_credentials_match by done. by rewrite Hu.
  - rewrite has_credentials_match by done. by rewrite Hno.
Qed.

Lemma find_items_found phone password items u :
  find_items (has_credentials phone password) items = Normal (Some u) ->
  first_match phone password items u.
Proof.
  induction items as [|x items IH]; [done|]. cbn.
  destruct (null_or_not x) as [->|Hx]; [done|].
  rewrite has_credentials_match by done.
  destruct (credentials_match phone password x) eqn:Hm.
  - intros [= ->]. exists [], items. repeat split; [done|constructor].
  - intros Hfind. destruct (IH Hfind) as (before & after & -> & Hu & Hbefore).
    exists (x :: before), after. repeat split; [done|by constructor].
Qed.

Lemma login_spec env phone password w result :
  userApi_login env phone password w = (Normal result, w) ->
  login env phone password w
  = if remote_ok result then
      (Normal true, signed_in w (default JNull (data result)))
    else
      match array_find (has_credentials phone password) (stored_users w) with
      | Normal (Some u) =>
        if truthy u then
          match rest_without "password" u with
          | Normal u1 => (Normal true, signed_in w u1)
          | Throw _ => (Normal false, w)
          end
        else (Normal false, w)
      | _ => (Normal false, w)
      end.
Proof.
  intros Hremote. unfold login, remote_ok.
  unfold try_catch at 1. unfold mbind at 1, M_bind, bind at 1.
  rewrite Hremote.
  destruct (success result && truthy_opt (data result)); [reflexivity|].
  unfold mbind at 1, bind at 1. rewrite safeLocalStorageGet_spec.
  fold (stored_users w). run_monad.
  destruct (array_find _ (stored_users w)) as [[u|]|]; [|reflexivity..].
  cbn [truthy_opt default from_option id]. destruct (truthy u); [|reflexivity].
  destruct (rest_without "password" u); reflexivity.
Qed.

Lemma array_find_roster phone password w :
  match array_find (has_credentials phone password) (stored_users w) with
  | Normal (Some u) => first_match phone password (roster w) u
  | _ => True
  end.
Proof.
  rewrite roster_stored_users.
  destruct (stored_users w) as [| | | |items|]; try exact I. cbn [array_find].
  destruct (find_items _ items) as [[u|]|] eqn:E; try exact I.
  by apply find_items_found.
Qed.

Lemma first_match_unique phone password items u1 u2 :
  first_match phone password items u1 -> first_match phone password items u2 ->
  u1 = u2.
Proof.
  intros H1 H2. apply find_items_first_match in H1, H2. congruence.
Qed.

(** C4 (login precedence).  [login] never raises.  When the remote envelope
    has [success: true] and data (data the test [result.data] accepts, as
    every user record is), that user is adopted and persisted as it came
    and [true] is returned.  Otherwise, and only then, the local roster is
    scanned: when its first record whose [phone] and [password] both equal
    the arguments is reached, the record without its [password] property is
    adopted, persisted under [currentUser], and [true] is returned.  In
    every other case (no such record, or a roster that cannot be scanned)
    [login] returns [false] and leaves the state as it was. *)
Theorem login_remote_first env (phone password : jsstring) (w : world) :
  exists result,
    userApi_login env phone password w = (Normal result, w)
    /\ (exists b w1, login env phone password w = (Normal b, w1))
    /\ (forall d, success result = true -> data result = Some d ->
          truthy d = true ->
          login env phone password w = (Normal true, signed_in w d))
    /\ (forall u, remote_ok result = false ->
          first_match phone password (roster w) u ->
          login env phone password w
          = (Normal true, signed_in w (without_password u))
          /\ carries_password (without_password u) = false)
    /\ (remote_ok result = false ->
        (forall u, ~ first_match phone password (roster w) u) ->
        login env phone password w = (Normal false, w)).
Proof.
  destruct (userApi_login_reply env phone password w) as [result Hremote].
  exists result. split; [exact Hremote|].
  rewrite (login_spec _ _ _ _ _ Hremote).
  pose proof (array_find_roster phone password w) as Hfind.
  split; [|split; [|split]].
  - destruct (remote_ok result); [by eexists _, _|].
    destruct (array_find _ _) as [[u|]|]; [|by eexists _, _..].
    destruct (truthy u); [|by eexists _, _].
    destruct (rest_without "password" u); by eexists _, _.
  - intros d Hs Hd Ht. unfold remote_ok. by rewrite Hs, Hd; cbn; rewrite Ht.
  - intros u -> Hu.
    destruct Hu as (before & after & Hitems & Hm & Hbefore).
    destruct (credentials_match_object _ _ _ Hm) as [props ->].
    assert (Hfirst : first_match phone password (roster w) (JObj props))
      by (by exists before, after).
    destruct (array_find _ _) as [[u1|]|] eqn:E.
    + rewrite (first_match_unique _ _ _ _ _ Hfind Hfirst). cbn.
      split; [reflexivity|].
      unfold carries_password. cbn. rewrite lookup_delete_eq.
      apply bool_decide_eq_false. by intros [? ?].
    + exfalso. revert E. rewrite roster_stored_users in Hitems.
      destruct (stored_users w) as [| | | |items|];
        try (by destruct before).
      cbn [array_find]. rewrite Hitems.
      rewrite (find_items_first_match phone password _ (JObj props)); [done|].
      by exists before, after.
    + exfalso. revert E. rewrite roster_stored_users in Hitems.
      destruct (stored_users w) as [| | | |items|];
        try (by destruct before).
      cbn [array_find]. rewrite Hitems.
      rewrite (find_items_first_match phone password _ (JObj props)); [done|].
      by exists before, after.
  - intros -> Hnone.
    destruct (array_find _ _) as [[u|]|]; [|reflexivity..].
    by destruct (Hnone u).
Qed.

(** ** [register] *)

Lemma userApi_register_reply env phone username password userType w :
  exists result,
    userApi_register env phone username password userType w = (Normal result, w).
Proof. unfold userApi_register. rewrite apiRequest_reply. by eexists. Qed.

Lemma has_phone_record phone u :
  u <> JNull ->
  has_phone phone u = Normal (strict_eq_str (optional_prop u "phone") phone).
Proof. intros Hu. by destruct u. Qed.

Lemma some_items_phone phone items :
  Forall (fun u => u <> JNull) items ->
  some_items (has_phone phone) items
  = Normal (existsb (fun u => strict_eq_str (optional_prop u "phone") phone) items).
Proof.
  induction 1 as [|u l Hu _ IH]; [done|]. cbn.
  rewrite has_phone_record by done.
  destruct (strict_eq_str (optional_prop u "phone") phone); [done|exact IH].
Qed.

Lemma array_some_phone_error phone users e :
  array_some (has_phone phone) users = Throw e -> instanceof_Error e = true.
Proof.
  destruct users as [| | | |items|]; try by intros [= <-].
  cbn [array_some]. induction items as [|u items IH]; [done|]. cbn.
  destruct u; cbn; try exact IH.
  - by intros [= <-].
  - destruct (strict_eq_str (props !! "phone") phone); [done|exact IH].
Qed.

Lemma rest_without_error k v e :
  rest_without k v = Throw e -> instanceof_Error e = true.
Proof. destruct v; try done. by intros [= <-]. Qed.

Lemma register_spec env phone username password userType w result :
  userApi_register env phone username password (userType_string userType) w
  = (Normal result, w) ->
  register env phone username password userType w
  = if remote_ok result then
      match rest_without "password" (default JNull (data result)) with
      | Normal u1 => (Normal true, signed_in w u1)
      | Throw e => (Throw e, w)
      end
    else if negb (name_ok userType username) then (Throw (name_error userType), w)
    else if negb (Regex.test phoneRegex phone) then (Throw phone_format_error, w)
    else
      match JSON_parse (or_else (localStorage w !! "users") (TextOf (JArr []))) with
      | Throw e => (Throw e, w)
      | Normal users =>
        match array_some (has_phone phone) users with
        | Throw e => (Throw e, w)
        | Normal true => (Throw phone_taken_error, w)
        | Normal false =>
          let record := newUser env phone username password userType in
          match array_push users (JObj record) with
          | Throw e => (Throw e, w)
          | Normal users1 =>
            (Normal true,
             World (<["currentUser" := TextOf (JObj (delete "password" record))]>
                      (<["users" := TextOf users1]> (localStorage w)))
                   true (JObj (delete "password" record)))
          end
        end
      end.
Proof.
  intros Hremote. unfold register, remote_ok.
  unfold try_catch at 1. unfold mbind at 1, M_bind, bind at 1.
  rewrite Hremote.
  destruct (success result && truthy_opt (data result)).
  { unfold mbind at 1, bind at 1, lift at 1.
    destruct (rest_without "password" _) as [u1|e] eqn:E; [reflexivity|].
    by rewrite (rest_without_error _ _ _ E). }
  unfold mbind at 1, bind at 1.
  assert (Hname :
    match userType with
    | student =>
      if negb (Regex.test studentNameRegex username)
      then throw student_format_error else mret ()
    | teacher =>
      if negb (Regex.test teacherNameRegex username)
      then throw teacher_format_error else mret ()
    end w
    = if negb (name_ok userType username)
      then (Throw (name_error userType), w) else (Normal (), w)).
  { destruct userType; cbn [name_ok name_error];
      by destruct (negb (Regex.test _ username)). }
  rewrite Hname. clear Hname.
  destruct (negb (name_ok userType username)); [by destruct userType|].
  unfold mbind at 1, bind at 1.
  destruct (negb (Regex.test phoneRegex phone)); [reflexivity|].
  unfold mret at 1, M_ret, ret at 1.
  unfold mbind at 1, bind at 1, getItem at 1.
  unfold mbind at 1, bind at 1, lift at 1.
  destruct (JSON_parse _) as [users|e] eqn:Eparse.
  2: { assert (e = SyntaxError) as ->; [|reflexivity].
       destruct (localStorage w !! "users") as [[]|]; cbn in Eparse; congruence. }
  unfold mbind at 1, bind at 1, lift at 1.
  destruct (array_some (has_phone phone) users) as [[]|e] eqn:Esome.
  - reflexivity.
  - cbv zeta. unfold mbind at 1, bind at 1, lift at 1.
    destruct users as [| | | |items|]; try discriminate Esome.
    reflexivity.
  - by rewrite (array_some_phone_error _ _ _ Esome).
Qed.

Lemma readable_roster_parse w :
  readable_roster w ->
  JSON_parse (or_else (localStorage w !! "users") (TextOf (JArr [])))
  = Normal (JArr (roster w))
  /\ Forall (fun u => u <> JNull) (roster w).
Proof.
  unfold readable_roster, roster.
  destruct (localStorage w !! "users") as [[[]| |]|]; try done; by split.
Qed.

Lemma existsb_phone_registered phone items :
  existsb (fun u => strict_eq_str (optional_prop u "phone") phone) items = true
  <-> phone_registered phone items.
Proof.
  unfold phone_registered. by rewrite existsb_exists, List.Exists_exists.
Qed.

(** The local path of [register] on a readable roster. *)
Lemma register_local env phone username password userType w result :
  userApi_register env phone username password (userType_string userType) w
  = (Normal result, w) ->
  remote_ok result = false ->
  readable_roster w ->
  register env phone username password userType w
  = if negb (name_ok userType username) then (Throw (name_error userType), w)
    else if negb (Regex.test phoneRegex phone) then (Throw phone_format_error, w)
    else if existsb (fun u => strict_eq_str (optional_prop u "phone") phone)
                    (roster w)
         then (Throw phone_taken_error, w)
         else (Normal true, registered env w phone username password userType).
Proof.
  intros Hremote Hfail Hroster.
  rewrite (register_spec _ _ _ _ _ _ _ Hremote), Hfail.
  destruct (readable_roster_parse w Hroster) as [-> Hnn].
  cbn [array_some]. rewrite some_items_phone by done.
  destruct (negb (name_ok userType username)); [reflexivity|].
  destruct (negb (Regex.test phoneRegex phone)); [reflexivity|].
  by destruct (existsb _ (roster w)).
Qed.

Lemma name_ok_pattern userType username :
  ~ In 124%N username ->
  name_ok userType username = true
  <-> match userType with
      | student => student_name username
      | teacher => chinese_name username
      end.
Proof.
  intros Hbar. destruct userType; cbn [name_ok].
  - by apply student_name_no_bar.
  - apply teacherNameRegex_test.
Qed.

Lemma invalid_with_tests userType username phone items :
  ~ In 124%N username ->
  invalid_with student_name userType username phone items
  <-> name_ok userType username = false
      \/ Regex.test phoneRegex phone = false
      \/ existsb (fun u => strict_eq_str (optional_prop u "phone") phone) items
         = true.
Proof.
  intros Hbar. unfold invalid_with.
  rewrite <- existsb_phone_registered, <- phoneRegex_test, not_true_iff_false.
  assert (Hname :
    (userType = student /\ ~ student_name username)
    \/ (userType = teacher /\ ~ chinese_name username)
    <-> name_ok userType username = false).
  { rewrite <- not_true_iff_false, (name_ok_pattern _ _ Hbar).
    destruct userType; intuition congruence. }
  tauto.
Qed.

(** C5, refuted as worded: a student name written with 級 instead of 班 does
    not match the pattern of the specification, and is registered. *)
Lemma register_validation_counterexample :
  ~ register_validates (page false unreachable)
      (u16 "13800138001") (u16 "2025届1級张三") (u16 "pw") student fresh.
Proof.
  intros H.
  destruct (H (failure (u16 "Failed to fetch")) eq_refl eq_refl) as [[_ Hraise] _].
  destruct Hraise as (e & w1 & Heq & _).
  - left. split; [reflexivity|]. intros Hname.
    apply student_name_spec_mark in Hname. vm_compute in Hname.
    repeat (destruct Hname as [Hname|Hname]; [discriminate Hname|]).
    exact Hname.
  - apply (f_equal fst) in Heq. vm_compute in Heq. discriminate Heq.
Qed.

(** C5 (registration validation), amended.  On remote failure, with a local
    roster that can be read (absent, empty, or an array of records) and a
    user name without a bar character, [register] raises one of its four
    descriptive errors exactly when local validation fails: the user is a
    student and the name is not [<202x>届<N>班<Chinese name>] or the same
    with 級 for 班; the user is a teacher and the name is not made of
    Chinese characters only; the phone is not an 11-digit mobile number;
    or the phone is already in the roster.  When validation passes, the new
    record is appended to the roster, the session is authenticated with the
    record without its password, and [register] returns [true]. *)
Theorem register_local_validation env (phone username password : jsstring)
    (userType : UserType) (w : world) (result : ApiResponse) :
  userApi_register env phone username password (userType_string userType) w
  = (Normal result, w) ->
  remote_ok result = false ->
  readable_roster w ->
  ~ In 124%N username ->
  (raises_validation_error (register env phone username password userType w)
   <-> invalid_with student_name userType username phone (roster w))
  /\ (~ invalid_with student_name userType username phone (roster w) ->
      register env phone username password userType w
      = (Normal true, registered env w phone username password userType)
      /\ isAuthenticated (registered env w phone username password userType)
         = true).
Proof.
  intros Hremote Hfail Hroster Hbar.
  rewrite (register_local _ _ _ _ _ _ _ Hremote Hfail Hroster).
  rewrite (invalid_with_tests _ _ _ _ Hbar).
  destruct (name_ok userType username); cbn [negb].
  2: { split; [|intros []; by left]. split; [by left|]. intros _.
       exists (name_error userType), w. split; [done|].
       destruct userType; [by left|right; by left]. }
  destruct (Regex.test phoneRegex phone); cbn [negb].
  2: { split; [|intros []; right; by left]. split; [right; by left|]. intros _.
       exists phone_format_error, w. split; [done|]. right; right; by left. }
  destruct (existsb _ (roster w)).
  { split; [|intros []; right; by right]. split; [right; by right|]. intros _.
    exists phone_taken_error, w. split; [done|]. right; right; by right. }
  split; [|done].
  split.
  - intros (e & w1 & Heq & _). discriminate Heq.
  - intros [H|[H|H]]; discriminate H.
Qed.

Lemma register_local_validation_witness :
  let env := page false unreachable in
  let phone := u16 "13800138001" in
  let username := u16 "2025届1班张三" in
  let password := u16 "pw" in
  (raises_validation_error (register env phone username password student fresh)
   <-> invalid_with student_name student username phone (roster fresh))
  /\ (~ invalid_with student_name student username phone (roster fresh) ->
      register env phone username password student fresh
      = (Normal true, registered env fresh phone username password student)
      /\ isAuthenticated (registered env fresh phone username password student)
         = true).
Proof.
  apply (register_local_validation (page false unreachable) (u16 "13800138001")
           (u16 "2025届1班张三") (u16 "pw") student fresh
           (failure (u16 "Failed to fetch"))).
  - reflexivity.
  - reflexivity.
  - exact I.
  - vm_compute. intros H.
    repeat (destruct H as [H|H]; [discriminate H|]). exact H.
Defined.

(** C9 (local registration never makes an administrator).  Whenever
    [register] succeeds through its local path, the record it appended to
    the roster has role [user], is not an administrator record, and the
    session it opened answers [false] to [isAdmin]. *)
Theorem local_registration_is_plain_user env (phone username password : jsstring)
    (userType : UserType) (w w1 : world) (result : ApiResponse) :
  userApi_register env phone username password (userType_string userType) w
  = (Normal result, w) ->
  remote_ok result = false ->
  register env phone username password userType w = (Normal true, w1) ->
  let record := newUser env phone username password userType in
  (exists items, stored_users w1 = JArr (items ++ [JObj record]))
  /\ record !! "role" = Some (JStr (u16 "user"))
  /\ is_admin_record (JObj record) = false
  /\ isAdmin w1 = false.
Proof.
  intros Hremote Hfail Hreg record.
  rewrite (register_spec _ _ _ _ _ _ _ Hremote), Hfail in Hreg.
  destruct (negb (name_ok userType username)); [discriminate Hreg|].
  destruct (negb (Regex.test phoneRegex phone)); [discriminate Hreg|].
  destruct (JSON_parse _) as [users|]; [|discriminate Hreg].
  destruct (array_some (has_phone phone) users) as [[]|]; try discriminate Hreg.
  cbv zeta in Hreg. fold record in Hreg.
  destruct users as [| | | |items|]; try discriminate Hreg.
  cbn [array_push] in Hreg. injection Hreg as <-.
  assert (Hrole : record !! "role" = Some (JStr (u16 "user")))
    by (vm_compute; reflexivity).
  split; [|split; [|split]].
  - exists items. unfold stored_users. cbn [localStorage].
    rewrite lookup_insert_ne by done. by rewrite lookup_insert_eq.
  - exact Hrole.
  - unfold is_admin_record. cbn [optional_prop]. rewrite Hrole.
    vm_compute. reflexivity.
  - unfold isAdmin. cbn [user optional_prop].
    rewrite lookup_delete_ne by done. rewrite Hrole.
    vm_compute. reflexivity.
Qed.

Lemma local_registration_is_plain_user_witness :
  let env := page false unreachable in
  let phone := u16 "13800138001" in
  let username := u16 "李老师" in
  let password := u16 "pw" in
  let record := newUser env phone username password teacher in
  (exists items,
     stored_users (registered env fresh phone username password teacher)
     = JArr (items ++ [JObj record]))
  /\ record !! "role" = Some (JStr (u16 "user"))
  /\ is_admin_record (JObj record) = false
  /\ isAdmin (registered env fresh phone username password teacher) = false.
Proof.
  apply (local_registration_is_plain_user (page false unreachable)
           (u16 "13800138001") (u16 "李老师") (u16 "pw") teacher fresh
           (registered (page false unreachable) fresh (u16 "13800138001")
              (u16 "李老师") (u16 "pw") teacher)
           (failure (u16 "Failed to fetch"))).
  - reflexivity.
  - reflexivity.
  - vm_compute. reflexivity.
Defined.

(** ** The password field of the session user *)


(** The paths that remove the password: the user adopted by the local path
    of [login] and by both paths of [register] has no [password] property. *)
Lemma rest_without_password v u :
  rest_without "password" v = Normal u -> carries_password u = false.
Proof.
  unfold rest_without. destruct (own_props v) as [props|]; [|done].
  intros [= <-]. unfold carries_password. cbn [optional_prop].
  rewrite lookup_delete_eq. apply bool_decide_eq_false. by intros [? ?].
Qed.

Lemma register_session_has_no_password env phone username password userType w w1 :
  register env phone username password userType w = (Normal true, w1) ->
  carries_password (user w1) = false.
Proof.
  destruct (userApi_register_reply env phone username password
              (userType_string userType) w) as [result Hremote].
  rewrite (register_spec _ _ _ _ _ _ _ Hremote).
  destruct (remote_ok result).
  { destruct (rest_without _ _) as [u1|] eqn:E; [|done].
    intros [= <-]. cbn [user signed_in]. by eapply rest_without_password. }
  destruct (negb (name_ok userType username)); [done|].
  destruct (negb (Regex.test phoneRegex phone)); [done|].
  destruct (JSON_parse _) as [users|]; [|done].
  destruct (array_some (has_phone phone) users) as [[]|]; try done.
  cbv zeta. destruct (array_push _ _); [|done].
  intros [= <-]. cbn [user]. unfold carries_password. cbn [optional_prop].
  rewrite lookup_delete_eq. apply bool_decide_eq_false. by intros [? ?].
Qed.

Lemma login_fallback_session_has_no_password env phone password w w1 result :
  userApi_login env phone password w = (Normal result, w) ->
  remote_ok result = false ->
  login env phone password w = (Normal true, w1) ->
  carries_password (user w1) = false.
Proof.
  intros Hremote Hfail. rewrite (login_spec _ _ _ _ _ Hremote), Hfail.
  destruct (array_find _ _) as [[u|]|]; try done.
  destruct (truthy u); [|done].
  destruct (rest_without "password" u) as [u1|] eqn:E; [|done].
  intros [= <-]. cbn [user signed_in]. by eapply rest_without_password.
Qed.

(** C8, where the code departs from it: when the server's answer to [login]
    carries a [password] property, [login] adopts and persists the user with
    it; [register] removes the property from the server's answer, [login]
    does not. *)
Theorem login_remote_keeps_password :
  let env := page false (answers 200 (Envelope true (Some leaky_user) None)) in
  let w1 := snd (login env (u16 "13800138001") (u16 "pw") fresh) in
  login env (u16 "13800138001") (u16 "pw") fresh = (Normal true, w1)
  /\ carries_password (user w1) = true
  /\ localStorage w1 !! "currentUser" = Some (TextOf leaky_user)
  /\ carries_password leaky_user = true.
Proof.
  cbv zeta.
  assert (Hremote :
    userApi_login (page false (answers 200 (Envelope true (Some leaky_user) None)))
      (u16 "13800138001") (u16 "pw") fresh
    = (Normal (Envelope true (Some leaky_user) None), fresh)).
  { unfold userApi_login. by rewrite apiRequest_reply. }
  rewrite (login_spec _ _ _ _ _ Hremote).
  change (remote_ok (Envelope true (Some leaky_user) None)) with true.
  cbn [snd signed_in user localStorage data default from_option id].
  split; [reflexivity|]. split; [by vm_compute|].
  split; [by rewrite lookup_insert_eq|by vm_compute].
Qed.

(* ===================================================================== *)
(** * Properties of the image viewer *)
(* ===================================================================== *)

Section Zoom.
Import ImageViewer.
#[local] Set Warnings "-inexact-float".
#[local] Open Scope float_scope.

(** One step never leaves the bound it clamps to, whatever the scale. *)
Lemma handleZoomIn_at_most_5 prev : (5 <? handleZoomIn prev) = false.
Proof.
  unfold handleZoomIn, Math_min.
  destruct (is_nan (prev + 0.2)); [reflexivity|].
  change (is_nan 5) with false. cbn [orb].
  set (lowest := min_step infinity (prev + 0.2)).
  unfold min_step. change (is_neg_zero 5) with false. cbn [andb].
  destruct (5 <? lowest) eqn:E; [reflexivity|exact E].
Qed.

Lemma handleZoomOut_at_least_02 prev : (handleZoomOut prev <? 0.2) = false.
Proof.
  unfold handleZoomOut, Math_max.
  destruct (is_nan (prev - 0.2)); [reflexivity|].
  change (is_nan 0.2) with false. cbn [orb].
  set (highest := max_step neg_infinity (prev - 0.2)).
  unfold max_step. change (is_pos_zero 0.2) with false. cbn [andb].
  destruct (highest <? 0.2) eqn:E; [reflexivity|exact E].
Qed.

(** The scales found by the search are closed under both operations. *)
Lemma reachable_closed :
  Forall (fun x => In (handleZoomIn x) reachable_scales
                   /\ In (handleZoomOut x) reachable_scales)
         reachable_scales.
Proof.
  unfold reachable_scales.
  repeat (constructor;
          [ split; vm_compute; repeat (first [left; reflexivity | right]) | ]).
  constructor.
Qed.

Lemma reachable_bounds :
  forallb (fun x => (0.2 <=? x) && (x <=? 5)) reachable_scales = true.
Proof. vm_compute. reflexivity. Qed.

Lemma reachable_step x op :
  In x reachable_scales -> In (apply_zoom x op) reachable_scales.
Proof.
  intros Hx. pose proof reachable_closed as Hc.
  rewrite List.Forall_forall in Hc. destruct (Hc x Hx) as [Hin Hout].
  by destruct op.
Qed.

Lemma reachable_fold ops x :
  In x reachable_scales -> In (fold_left apply_zoom ops x) reachable_scales.
Proof.
  revert x. induction ops as [|op ops IH]; intros x Hx; [exact Hx|].
  cbn [fold_left]. apply IH. by apply reachable_step.
Qed.

(** C10 (zoom clamp).  From any scale, [handleZoomIn] never gives a scale
    above 5 and [handleZoomOut] never gives one below 0.2; and after any
    sequence of zoom-in and zoom-out steps from the initial scale 1 the
    scale lies between 0.2 and 5.  Scales are binary64 numbers, and the
    arithmetic is theirs. *)
Theorem zoom_stays_in_range :
  (forall prev, (5 <? handleZoomIn prev) = false)
  /\ (forall prev, (handleZoomOut prev <? 0.2) = false)
  /\ (forall ops, (0.2 <=? scale_after ops) = true
                  /\ (scale_after ops <=? 5) = true).
Proof.
  split; [exact handleZoomIn_at_most_5|].
  split; [exact handleZoomOut_at_least_02|].
  intros ops.
  assert (Hin : In (scale_after ops) reachable_scales).
  { apply reachable_fold. vm_compute. repeat (first [left; reflexivity | right]). }
  pose proof reachable_bounds as Hb. rewrite forallb_forall in Hb.
  apply Hb in Hin. by apply andb_true_iff in Hin.
Qed.

End Zoom.

(* ===================================================================== *)
(** * The scenarios of the specification, run on the code *)
(* ===================================================================== *)

Section Scenarios.

Let offline : Env := page false unreachable.
Let online : Env :=
  page false (knows (u16 "13800138001") (u16 "remote-pw") remote_account).

(** Admin self-healing: a fresh store gets its administrator; a roster from
    which the administrator was deleted gets it back behind the records it
    holds. *)
Example admin_created :
  roster (initialized offline 1 fresh) = [admin_record offline].
Proof. vm_compute. reflexivity. Qed.

Example admin_restored :
  roster (initialized offline 3 with_local_account)
  = [local_account; admin_record offline].
Proof. vm_compute. reflexivity. Qed.

(** Login precedence: the remote password signs in through the remote side;
    the local password signs in when the remote call fails, and the session
    user has lost its password; a password neither side knows is refused. *)
Example login_by_remote :
  login online (u16 "13800138001") (u16 "remote-pw") with_local_account
  = (Normal true, signed_in with_local_account remote_account).
Proof. vm_compute. reflexivity. Qed.

Example login_by_fallback :
  login offline (u16 "13800138001") (u16 "local-pw") with_local_account
  = (Normal true, signed_in with_local_account remote_account).
Proof. vm_compute. reflexivity. Qed.

Example login_refused :
  login online (u16 "13800138001") (u16 "guess") with_local_account
  = (Normal false, with_local_account).
Proof. vm_compute. reflexivity. Qed.

(** A corrupt roster is no reason to raise. *)
Example login_on_corrupt_roster :
  let broken := World {[ "users" := MalformedText ]} false JNull in
  let misshapen := World {[ "users" := TextOf (JObj ∅) ]} false JNull in
  let holed := World {[ "users" := TextOf (JArr [JNull; local_account]) ]} false JNull in
  login offline (u16 "13800138001") (u16 "local-pw") broken = (Normal false, broken)
  /\ login offline (u16 "13800138001") (u16 "local-pw") misshapen
     = (Normal false, misshapen)
  /\ login offline (u16 "13800138001") (u16 "local-pw") holed = (Normal false, holed).
Proof. vm_compute. repeat split. Qed.

(** Registration validation. *)
Example register_rejects_plain_name :
  register offline (u16 "13800138000") (u16 "张三") (u16 "pw") student fresh
  = (Throw student_format_error, fresh).
Proof. vm_compute. reflexivity. Qed.

Example register_locally :
  let w1 := registered offline fresh (u16 "13800138001") (u16 "2025届1班张三")
              (u16 "pw") student in
  register offline (u16 "13800138001") (u16 "2025届1班张三") (u16 "pw") student fresh
  = (Normal true, w1)
  /\ isAuthenticated w1 = true
  /\ register offline (u16 "13800138001") (u16 "2025届1班张三") (u16 "pw") student w1
     = (Throw phone_taken_error, w1).
Proof. vm_compute. repeat split. Qed.

(** The bar of the character class [[班|級]] is accepted as a mark. *)
Example register_accepts_bar :
  fst (register offline (u16 "13800138001") (u16 "2025届1|张三") (u16 "pw")
         student fresh)
  = Normal true.
Proof. vm_compute. reflexivity. Qed.

(** [register] reads the roster with a bare [JSON.parse]: a corrupt roster
    makes it raise. *)
Example register_on_corrupt_roster :
  let broken := World {[ "users" := MalformedText ]} false JNull in
  register offline (u16 "13800138001") (u16 "2025届1班张三") (u16 "pw") student broken
  = (Throw SyntaxError, broken).
Proof. vm_compute. reflexivity. Qed.

End Scenarios.

(* ===================================================================== *)
(** * Further properties of the code *)
(* ===================================================================== *)

(** ** The resource modules *)

(** X1 (header merge).  The request [apiRequest] hands to [fetch] goes to
    [<base>/<endpoint>], keeps the caller's method and body, keeps every
    header of the caller as it is, and has [Content-Type: application/json]
    exactly when the caller gave no [Content-Type] of its own. *)
Theorem apiRequest_merges_headers env endpoint options w :
  exists init,
    apiRequest env endpoint options w
    = (Normal (reply env (fetch env (API_BASE_URL env ++ u16 "/" ++ endpoint) init)),
       w)
    /\ method init = method options
    /\ body init = body options
    /\ (forall k v, headers options !! k = Some v -> headers init !! k = Some v)
    /\ (headers options !! "Content-Type" = None ->
        headers init !! "Content-Type" = Some (u16 "application/json"))
    /\ (forall k, k <> "Content-Type" -> headers init !! k = headers options !! k).
Proof.
  exists (sent_init options). split; [apply apiRequest_reply|].
  split; [reflexivity|]. split; [reflexivity|]. cbn [headers sent_init].
  split; [|split].
  - intros k v Hk. by apply lookup_union_Some_l.
  - intros Hnone. rewrite lookup_union_r by done. apply lookup_singleton_eq.
  - intros k Hk. destruct (headers options !! k) as [v|] eqn:E.
    + by apply lookup_union_Some_l.
    + rewrite lookup_union_r by done. by apply lookup_singleton_ne.
Qed.

(** X2 (no operation of the resource modules writes).  None of the five
    reads, the three writes and the three user calls changes the local
    store or the session cells.  The three writes and the three user
    calls, which only hand a JSON payload to [apiRequest], return normally
    whatever the network does. *)
Theorem resource_modules_leave_state env (w : world) :
  (forall op, snd (run env op w) = w)
  /\ (forall op, exists r, run_write env op w = (Normal r, w))
  /\ (forall phone password,
        exists r, userApi_login env phone password w = (Normal r, w))
  /\ (forall phone username password userType,
        exists r,
          userApi_register env phone username password userType w = (Normal r, w))
  /\ (exists r, getCurrentUser env w = (Normal r, w)).
Proof.
  assert (Hcurrent : exists r, getCurrentUser env w = (Normal r, w)).
  { unfold getCurrentUser. rewrite apiRequest_reply. by eexists. }
  split; [|split; [|split; [|split]]].
  - intros [r|wr|phone password|phone username password ut|]; cbn [run].
    + by rewrite run_read_spec.
    + by rewrite run_write_spec.
    + by destruct (userApi_login_reply env phone password w) as [r ->].
    + by destruct (userApi_register_reply env phone username password ut w)
        as [r ->].
    + by destruct Hcurrent as [r ->].
  - intros op. rewrite run_write_spec. by eexists.
  - intros phone password. apply userApi_login_reply.
  - intros phone username password ut. apply userApi_register_reply.
  - exact Hcurrent.
Qed.

(** X3 (a successful read does not look at the cache).  When the remote
    envelope of a read operation has [success: true], the operation returns
    that envelope as it is, whatever the local store holds under the
    operation's key, and writes nothing: reads are never mirrored. *)
Theorem read_success_ignores_cache env (op : read_op) (w : world)
    (result : ApiResponse) :
  apiRequest env (read_endpoint op) no_options w = (Normal result, w) ->
  success result = true ->
  run_read env op w = (Normal result, w).
Proof.
  intros Hreq Hok. rewrite apiRequest_reply in Hreq. injection Hreq as Hreq.
  rewrite run_read_spec. cbv zeta. by rewrite Hreq, Hok.
Qed.

Lemma read_success_ignores_cache_witness :
  let fresh_list := Envelope true (Some (JArr [JStr (u16 "new")])) None in
  let env := page false (answers 200 fresh_list) in
  let w := World {[ "messages" := TextOf (JArr [JStr (u16 "old")]) ]} false JNull in
  run_read env GetMessages w = (Normal fresh_list, w).
Proof.
  apply (read_success_ignores_cache
           (page false (answers 200
              (Envelope true (Some (JArr [JStr (u16 "new")])) None)))
           GetMessages); reflexivity.
Defined.

(** ** The patterns of [register] *)

(** X4 (phone pattern).  [phoneRegex] accepts exactly the strings of eleven
    ASCII digits whose first digit is 1 and whose second is 3 to 9. *)
Theorem phoneRegex_accepts (s : jsstring) :
  Regex.test phoneRegex s = true
  <-> length s = 11
      /\ Forall is_digit s
      /\ s !! 0 = Some 49%N
      /\ (exists d, s !! 1 = Some d /\ (51 <= d <= 57)%N).
Proof.
  rewrite phoneRegex_test. unfold cn_mobile.
  replace (u16 "1") with [49%N] by (vm_compute; reflexivity).
  split.
  - intros (d & rest & -> & Hd & Hl & Hall). cbn. rewrite Hl.
    split; [done|]. split.
    + constructor; [unfold is_digit; lia|].
      constructor; [unfold is_digit; lia|done].
    + split; [done|]. by exists d.
  - intros (Hl & Hall & H0 & d & H1 & Hd).
    destruct s as [|c [|d1 rest]]; try discriminate.
    cbn in H0, H1. injection H0 as ->. injection H1 as ->.
    exists d, rest. split; [done|]. split; [done|].
    split; [by injection Hl|].
    by inversion Hall as [|? ? _ [|? ? _ Hrest]].
Qed.

(** X5 (name patterns).  [studentNameRegex] accepts exactly the names
    [202<digit>届<N><mark><name>] where [N] is a positive numeral without
    leading zero, [<name>] is one or more Chinese characters, and the mark
    is 班, 級 or a bar [|] (the class [[班|級]] lists the bar as a member);
    [teacherNameRegex] accepts exactly the non-empty strings of Chinese
    characters. *)
Theorem name_patterns_accept (s : jsstring) :
  (Regex.test studentNameRegex s = true
   <-> student_name_with (u16 "班|級") s)
  /\ (Regex.test teacherNameRegex s = true <-> chinese_name s).
Proof.
  split; [|apply teacherNameRegex_test].
  rewrite studentNameRegex_test.
  by replace (u16 "班|級") with [29677; 124; 32026]%N by (vm_compute; reflexivity).
Qed.

(** ** The session manager *)

Lemma logout_spec w : logout w = (Normal tt, signed_out w).
Proof. reflexivity. Qed.

Lemma login_result env phone password w :
  exists (b : bool) w1,
    login env phone password w = (Normal b, w1)
    /\ if b then exists u, w1 = signed_in w u else w1 = w.
Proof.
  destruct (userApi_login_reply env phone password w) as [result Hremote].
  rewrite (login_spec _ _ _ _ _ Hremote).
  destruct (remote_ok result).
  { exists true. eexists. split; [reflexivity|]. by eexists. }
  destruct (array_find _ _) as [[u|]|]; try by exists false, w.
  destruct (truthy u); [|by exists false, w].
  destruct (rest_without "password" u); [|by exists false, w].
  exists true. eexists. split; [reflexivity|]. by eexists.
Qed.

(** X6 (logout after login).  Whatever [login] did, [logout] afterwards
    leaves the session anonymous and the store as it was before the login
    but for the key [currentUser], which is absent: the roster is untouched
    and [isAdmin] answers [false].  If the page was anonymous with no
    persisted user before, the state is exactly what it was. *)
Theorem logout_after_login env (phone password : jsstring) (w : world) :
  logout (snd (login env phone password w)) = (Normal tt, signed_out w)
  /\ roster (signed_out w) = roster w
  /\ isAdmin (signed_out w) = false
  /\ (localStorage w !! "currentUser" = None -> isAuthenticated w = false ->
      user w = JNull -> signed_out w = w).
Proof.
  split; [|split; [|split]].
  - rewrite logout_spec. f_equal.
    destruct (login_result env phone password w) as (b & w1 & -> & Hb).
    cbn [snd]. destruct b; [|by subst]. destruct Hb as [u ->].
    unfold signed_out, signed_in. cbn [localStorage]. by rewrite delete_insert_eq.
  - unfold roster, signed_out. cbn [localStorage]. by rewrite lookup_delete_ne.
  - reflexivity.
  - intros Hnone Hauth Huser. destruct w as [ls auth u]. cbn in *. subst.
    unfold signed_out. cbn. by rewrite delete_id.
Qed.

Lemma ensureAdminExists_session env w :
  isAuthenticated (snd (ensureAdminExists env w)) = isAuthenticated w
  /\ user (snd (ensureAdminExists env w)) = user w.
Proof.
  rewrite ensureAdminExists_spec. cbn [snd].
  destruct (stored_users w) as [| | | |items|]; try done.
  by destruct (some_items is_default_admin items) as [[]|].
Qed.

Lemma login_persists env phone password w w1 :
  login env phone password w = (Normal true, w1) ->
  localStorage w1 !! "currentUser" = Some (TextOf (user w1)).
Proof.
  destruct (login_result env phone password w) as (b & w2 & -> & Hb).
  intros [= -> ->]. destruct Hb as [u ->]. cbn. apply lookup_insert_eq.
Qed.

Lemma register_persists env phone username password userType w w1 :
  register env phone username password userType w = (Normal true, w1) ->
  localStorage w1 !! "currentUser" = Some (TextOf (user w1)).
Proof.
  destruct (userApi_register_reply env phone username password
              (userType_string userType) w) as [result Hremote].
  rewrite (register_spec _ _ _ _ _ _ _ Hremote).
  destruct (remote_ok result).
  { destruct (rest_without _ _); [|done]. intros [= <-]. cbn. apply lookup_insert_eq. }
  destruct (negb (name_ok userType username)); [done|].
  destruct (negb (Regex.test phoneRegex phone)); [done|].
  destruct (JSON_parse _) as [users|]; [|done].
  destruct (array_some (has_phone phone) users) as [[]|]; try done.
  cbv zeta. destruct (array_push _ _); [|done].
  intros [= <-]. cbn. apply lookup_insert_eq.
Qed.

(** On the values encoding preserves, the text written for a value reads
    back as what the encoder and the decoder of the browser make of it. *)
Lemma JSON_stringify_stable v :
  json_stable v -> JSON_parse (JSON_stringify v) = Normal (JSON_roundtrip v).
Proof. intros ->. reflexivity. Qed.

(** A numeral beyond the range of binary64 is read as [Infinity] and
    written back as [null], and the negative zero is written back as [0]:
    neither is preserved. *)
Lemma overflow_not_stable : ~ json_stable (JArr [JNum infinity]).
Proof. unfold json_stable. vm_compute. discriminate. Qed.

Lemma negative_zero_not_stable : ~ json_stable (JNum (-0)%float).
Proof.
  unfold json_stable. vm_compute. intros H.
  assert (Hsign : forall a b,
            JNum a = JNum b -> PrimFloat.get_sign a = PrimFloat.get_sign b).
  { intros a b Hab. by inversion Hab. }
  apply Hsign in H. vm_compute in H. discriminate H.
Qed.

(** X7 (a session survives a reload).  After a [login] or a [register]
    that returned [true] and persisted a session user that JSON encoding
    preserves (its numbers are finite and none is the negative zero),
    reloading the page (same store, fresh React cells) and running the
    mount effect restores the same session user and marks the session
    authenticated. *)
Theorem session_survives_reload env env2 (phone username password : jsstring)
    (userType : UserType) (w w1 : world) :
  login env phone password w = (Normal true, w1)
  \/ register env phone username password userType w = (Normal true, w1) ->
  json_stable (user w1) ->
  isAuthenticated (snd (mount env2 (reloaded w1))) = true
  /\ user (snd (mount env2 (reloaded w1))) = user w1.
Proof.
  intros Hdone _.
  assert (Hkept : localStorage w1 !! "currentUser" = Some (TextOf (user w1))).
  { destruct Hdone as [H|H]; [by eapply login_persists|by eapply register_persists]. }
  rewrite mount_spec. unfold reloaded. cbn [localStorage]. rewrite Hkept.
  match goal with
  | |- context [ensureAdminExists env2 ?x] =>
    destruct (ensureAdminExists_session env2 x) as [-> ->]
  end.
  done.
Qed.

Lemma session_survives_reload_witness :
  let env := page false unreachable in
  let w1 := registered env fresh (u16 "13800138001") (u16 "李老师") (u16 "pw") teacher in
  isAuthenticated (snd (mount env (reloaded w1))) = true
  /\ user (snd (mount env (reloaded w1))) = user w1.
Proof.
  apply (session_survives_reload (page false unreachable) (page false unreachable)
           (u16 "13800138001") (u16 "李老师") (u16 "pw") teacher fresh).
  - right. vm_compute. reflexivity.
  - vm_compute. reflexivity.
Defined.

(** X8 (the mount effect).  When [currentUser] holds a text that decodes,
    the mount effect leaves the session authenticated with the decoded
    value as user, whatever that value is; when the key is absent, empty
    or holds text that does not decode, it leaves the session cells as
    they were. *)
Theorem mount_restores_or_keeps env (w : world) :
  match localStorage w !! "currentUser" with
  | Some (TextOf v) =>
    isAuthenticated (snd (mount env w)) = true /\ user (snd (mount env w)) = v
  | _ =>
    isAuthenticated (snd (mount env w)) = isAuthenticated w
    /\ user (snd (mount env w)) = user w
  end.
Proof.
  rewrite mount_spec.
  destruct (localStorage w !! "currentUser") as [[v| |]|];
    [ destruct (ensureAdminExists_session env (World (localStorage w) true v))
        as [-> ->]
    | destruct (ensureAdminExists_session env w) as [-> ->] .. ];
    done.
Qed.

(** X9 (the admin routine only appends).  [ensureAdminExists] leaves the
    session cells and every key of the store other than [users] as they
    were.  When JSON encoding preserves the records of the roster (their
    numbers are finite and none is the negative zero), the roster it
    leaves is the roster it found, or that roster followed by the default
    administrator record: no record is removed, changed or reordered. *)
Theorem ensureAdminExists_only_appends env (w : world) :
  isAuthenticated (snd (ensureAdminExists env w)) = isAuthenticated w
  /\ user (snd (ensureAdminExists env w)) = user w
  /\ (forall k, k <> "users" ->
        localStorage (snd (ensureAdminExists env w)) !! k = localStorage w !! k)
  /\ (Forall json_stable (roster w) ->
      roster (snd (ensureAdminExists env w)) = roster w
      \/ roster (snd (ensureAdminExists env w)) = roster w ++ [admin_record env]).
Proof.
  destruct (ensureAdminExists_session env w) as [Ha Hu].
  split; [done|]. split; [done|].
  rewrite ensureAdminExists_spec. cbn [snd].
  pose proof (roster_stored_users w) as Hr.
  destruct (stored_users w) as [| | | |items|]; try (split; [done|by left]).
  destruct (some_items is_default_admin items) as [[]|];
    try (split; [done|by left]).
  split.
  - intros k Hk. unfold with_users. cbn. by rewrite lookup_insert_ne.
  - intros _. right. by rewrite roster_with_users, Hr.
Qed.

Lemma usable_stored_users w :
  usable_roster w ->
  stored_users w = JArr (roster w) /\ Forall (fun u => u <> JNull) (roster w).
Proof.
  unfold usable_roster, stored_users, roster.
  destruct (localStorage w !! "users") as [[[]| |]|]; try done; by split.
Qed.

Lemma phone_of_mismatch phone u :
  phone_of u <> Some phone ->
  strict_eq_str (optional_prop u "phone") phone = false.
Proof.
  unfold phone_of, strict_eq_str.
  destruct (optional_prop u "phone") as [[]|]; try done.
  intros Hne. apply bool_decide_eq_false. congruence.
Qed.

(** The login through the roster with the credentials of a record that
    stands behind records with other phones. *)
Lemma login_local_last env phone password w result items props :
  userApi_login env phone password w = (Normal result, w) ->
  remote_ok result = false ->
  stored_users w = JArr (items ++ [JObj props]) ->
  Forall (fun u => u <> JNull) items ->
  Forall (fun u => strict_eq_str (optional_prop u "phone") phone = false) items ->
  credentials_match phone password (JObj props) = true ->
  login env phone password w
  = (Normal true, signed_in w (JObj (delete "password" props))).
Proof.
  intros Hr Hfail Hstored Hnn Hother Hmatch.
  rewrite (login_spec _ _ _ _ _ Hr), Hfail, Hstored. cbn [array_find].
  rewrite (find_items_first_match phone password _ (JObj props)); [done|].
  exists items, []. split; [done|]. split; [done|].
  rewrite Forall_forall. intros u Hu.
  rewrite Forall_forall in Hnn, Hother.
  split; [by apply Hnn|]. unfold credentials_match. by rewrite (Hother u Hu).
Qed.

(** The sample roster holds one record of strings. *)
Lemma local_account_stable : Forall json_stable (roster with_local_account).
Proof.
  replace (roster with_local_account) with [local_account]
    by (vm_compute; reflexivity).
  constructor; [|constructor]. unfold json_stable. vm_compute. reflexivity.
Qed.

(** X10 (the default administrator can sign in through the roster).  Take
    a roster the admin routine can read, whose records JSON encoding
    preserves and none of which has the reserved phone.  After the routine
    has run and stored the roster, a login with the reserved phone and the
    default password, to which the remote side answers with an envelope
    [login] does not accept (no success, or no data), succeeds through the
    local roster; the session it opens answers [true] to [isAdmin] and its
    user carries no password. *)
Theorem default_admin_signs_in_offline env env2 (w : world) (result : ApiResponse) :
  usable_roster w ->
  Forall json_stable (roster w) ->
  Forall (fun u => phone_of u <> Some DEFAULT_ADMIN_phone) (roster w) ->
  userApi_login env2 DEFAULT_ADMIN_phone (u16 "admin123")
    (snd (ensureAdminExists env w))
  = (Normal result, snd (ensureAdminExists env w)) ->
  remote_ok result = false ->
  exists w2,
    login env2 DEFAULT_ADMIN_phone (u16 "admin123") (snd (ensureAdminExists env w))
    = (Normal true, w2)
    /\ isAuthenticated w2 = true
    /\ isAdmin w2 = true
    /\ carries_password (user w2) = false.
Proof.
  intros Husable _ Hphones.
  destruct (usable_stored_users w Husable) as [Hstored Hnn].
  assert (Hother : Forall (fun u => strict_eq_str (optional_prop u "phone")
                                      DEFAULT_ADMIN_phone = false) (roster w)).
  { eapply Forall_impl; [exact Hphones|]. intros u. apply phone_of_mismatch. }
  assert (Hnone : existsb is_admin_record (roster w) = false).
  { apply not_true_is_false. intros Hex. apply existsb_exists in Hex as (u & Hu & Ha).
    rewrite List.Forall_forall in Hother. apply (Hother u) in Hu.
    unfold is_admin_record in Ha. rewrite Hu in Ha.
    by rewrite andb_false_r in Ha. }
  rewrite ensureAdminExists_spec, Hstored, some_items_admin, Hnone by done.
  cbn [snd]. intros Hremote Hfail. eexists. split.
  - apply (login_local_last env2 _ _ _ result (roster w)
             (<["password" := JStr (u16 "admin123")]> (DEFAULT_ADMIN env)));
      [done|done|apply stored_users_with_users|done|done|by vm_compute].
  - split; [reflexivity|]. split; [by vm_compute|].
    unfold carries_password. cbn [user signed_in optional_prop].
    rewrite lookup_delete_eq. apply bool_decide_eq_false. by intros [? ?].
Qed.

Lemma default_admin_signs_in_offline_witness :
  let env := page false (refuses (u16 "/api/user/login")) in
  exists w2,
    login env DEFAULT_ADMIN_phone (u16 "admin123")
      (snd (ensureAdminExists env with_local_account))
    = (Normal true, w2)
    /\ isAuthenticated w2 = true
    /\ isAdmin w2 = true
    /\ carries_password (user w2) = false.
Proof.
  apply (default_admin_signs_in_offline
           (page false (refuses (u16 "/api/user/login")))
           (page false (refuses (u16 "/api/user/login"))) with_local_account
           refused).
  - vm_compute. by repeat constructor.
  - apply local_account_stable.
  - vm_compute. by repeat constructor.
  - vm_compute. reflexivity.
  - reflexivity.
Defined.

Lemma existsb_false_Forall {A} (f : A -> bool) l :
  existsb f l = false -> Forall (fun u => f u = false) l.
Proof.
  induction l as [|u l IH]; [constructor|]. cbn.
  intros H. apply orb_false_iff in H as [Hu Hl]. constructor; [done|by apply IH].
Qed.

Lemma readable_nonnull w :
  readable_roster w -> Forall (fun u => u <> JNull) (roster w).
Proof. intros H. by destruct (readable_roster_parse w H). Qed.

(** What a successful local registration found and left. *)
Lemma register_local_success env phone username password userType w w1 result :
  userApi_register env phone username password (userType_string userType) w
  = (Normal result, w) ->
  remote_ok result = false ->
  readable_roster w ->
  register env phone username password userType w = (Normal true, w1) ->
  w1 = registered env w phone username password userType
  /\ name_ok userType username = true
  /\ Regex.test phoneRegex phone = true
  /\ Forall (fun u => strict_eq_str (optional_prop u "phone") phone = false)
            (roster w).
Proof.
  intros Hr Hfail Hread.
  rewrite (register_local _ _ _ _ _ _ _ Hr Hfail Hread).
  destruct (name_ok userType username); [|done].
  destruct (Regex.test phoneRegex phone); [|done].
  destruct (existsb _ (roster w)) eqn:Hex; [done|].
  intros [= <-]. repeat split. by apply existsb_false_Forall.
Qed.

Lemma newUser_credentials env phone username password userType :
  credentials_match phone password
    (JObj (newUser env phone username password userType)) = true.
Proof.
  unfold credentials_match. cbn [optional_prop].
  replace (newUser env phone username password userType !! "phone")
    with (Some (JStr phone)) by (vm_compute; reflexivity).
  replace (newUser env phone username password userType !! "password")
    with (Some (JStr password)) by (vm_compute; reflexivity).
  cbn. by rewrite !bool_decide_eq_true_2.
Qed.

Lemma stored_users_registered env w phone username password userType :
  stored_users (signed_out (registered env w phone username password userType))
  = JArr (roster w ++ [JObj (newUser env phone username password userType)])
  /\ stored_users (registered env w phone username password userType)
     = JArr (roster w ++ [JObj (newUser env phone username password userType)]).
Proof.
  unfold stored_users, signed_out, registered. cbn [localStorage].
  rewrite lookup_delete_ne by done. rewrite lookup_insert_ne by done.
  by rewrite lookup_insert_eq.
Qed.

(** X11 (register, sign out, sign in).  After a registration that succeeded
    through the local path on a readable roster whose records JSON encoding
    preserves, and a logout, a login with the same phone and password, to
    which the remote side answers with an envelope [login] does not accept
    (no success, or no data), succeeds through the local roster and opens
    a session with the same user as the registration did. *)
Theorem register_then_login_offline env env2 (phone username password : jsstring)
    (userType : UserType) (w w1 : world) (result result2 : ApiResponse) :
  userApi_register env phone username password (userType_string userType) w
  = (Normal result, w) ->
  remote_ok result = false ->
  readable_roster w ->
  Forall json_stable (roster w) ->
  register env phone username password userType w = (Normal true, w1) ->
  userApi_login env2 phone password (snd (logout w1))
  = (Normal result2, snd (logout w1)) ->
  remote_ok result2 = false ->
  exists w2,
    login env2 phone password (snd (logout w1)) = (Normal true, w2)
    /\ isAuthenticated w2 = true
    /\ user w2 = user w1.
Proof.
  intros Hr Hfail Hread _ Hreg.
  destruct (register_local_success _ _ _ _ _ _ _ _ Hr Hfail Hread Hreg)
    as (-> & _ & _ & Hother).
  rewrite logout_spec. cbn [snd]. intros Hr2 Hfail2. eexists. split.
  - apply (login_local_last env2 phone password _ result2 (roster w)
             (newUser env phone username password userType));
      [done|done|apply stored_users_registered|by apply readable_nonnull|done
      |apply newUser_credentials].
  - by split.
Qed.

Lemma register_then_login_offline_witness :
  let env := page false unreachable in
  let w1 := registered env fresh (u16 "13800138001") (u16 "李老师") (u16 "pw") teacher in
  exists w2,
    login env (u16 "13800138001") (u16 "pw") (snd (logout w1)) = (Normal true, w2)
    /\ isAuthenticated w2 = true
    /\ user w2 = user w1.
Proof.
  apply (register_then_login_offline (page false unreachable)
           (page false unreachable) (u16 "13800138001") (u16 "李老师") (u16 "pw")
           teacher fresh
           (registered (page false unreachable) fresh (u16 "13800138001")
              (u16 "李老师") (u16 "pw") teacher)
           (failure (u16 "Failed to fetch")) (failure (u16 "Failed to fetch"))).
  - reflexivity.
  - reflexivity.
  - exact I.
  - constructor.
  - vm_compute. reflexivity.
  - reflexivity.
  - reflexivity.
Defined.

Lemma registered_readable env w phone username password userType :
  readable_roster w ->
  readable_roster (registered env w phone username password userType)
  /\ roster (registered env w phone username password userType)
     = roster w ++ [JObj (newUser env phone username password userType)].
Proof.
  intros Hread. unfold readable_roster, roster, registered. cbn [localStorage].
  rewrite lookup_insert_ne by done. rewrite lookup_insert_eq.
  split; [|done]. apply Forall_app. split; [by apply readable_nonnull|].
  by repeat constructor.
Qed.

(** X12 (a phone registers once).  After a registration that succeeded
    through the local path on a readable roster whose records JSON
    encoding preserves, a further registration with the same phone that
    falls back to the local path never succeeds, whatever the name,
    password and user type: it raises one of the validation errors and
    leaves the state as it was; with the same name and user type the error
    is the duplicate-phone error. *)
Theorem phone_registers_once env env2 (phone username password : jsstring)
    (userType : UserType) (w w1 : world) (result : ApiResponse) :
  userApi_register env phone username password (userType_string userType) w
  = (Normal result, w) ->
  remote_ok result = false ->
  readable_roster w ->
  Forall json_stable (roster w) ->
  register env phone username password userType w = (Normal true, w1) ->
  (forall username2 password2 userType2 result2,
     userApi_register env2 phone username2 password2 (userType_string userType2) w1
     = (Normal result2, w1) ->
     remote_ok result2 = false ->
     exists e,
       register env2 phone username2 password2 userType2 w1 = (Throw e, w1)
       /\ validation_error e)
  /\ (forall password2 result2,
        userApi_register env2 phone username password2 (userType_string userType) w1
        = (Normal result2, w1) ->
        remote_ok result2 = false ->
        register env2 phone username password2 userType w1
        = (Throw phone_taken_error, w1)).
Proof.
  intros Hr Hfail Hread _ Hreg.
  destruct (register_local_success _ _ _ _ _ _ _ _ Hr Hfail Hread Hreg)
    as (-> & Hname & Hphone & _).
  destruct (registered_readable env w phone username password userType Hread)
    as [Hread1 Hroster1].
  assert (Htaken :
    existsb (fun u => strict_eq_str (optional_prop u "phone") phone)
      (roster (registered env w phone username password userType)) = true).
  { rewrite Hroster1, existsb_app. apply orb_true_iff. right. cbn.
    replace (newUser env phone username password userType !! "phone")
      with (Some (JStr phone)) by (vm_compute; reflexivity).
    cbn. by rewrite bool_decide_eq_true_2. }
  assert (Hsecond : forall username2 password2 userType2 result2,
    userApi_register env2 phone username2 password2 (userType_string userType2)
      (registered env w phone username password userType)
    = (Normal result2, registered env w phone username password userType) ->
    remote_ok result2 = false ->
    register env2 phone username2 password2 userType2
      (registered env w phone username password userType)
    = if negb (name_ok userType2 username2)
      then (Throw (name_error userType2),
            registered env w phone username password userType)
      else (Throw phone_taken_error,
            registered env w phone username password userType)).
  { intros username2 password2 userType2 result2 Hr2 Hfail2.
    rewrite (register_local _ _ _ _ _ _ _ Hr2 Hfail2 Hread1), Hphone, Htaken.
    reflexivity. }
  split.
  - intros username2 password2 userType2 result2 Hr2 Hfail2.
    rewrite (Hsecond _ _ _ _ Hr2 Hfail2).
    destruct (negb (name_ok userType2 username2)).
    + eexists. split; [reflexivity|].
      destruct userType2; [by left|right; by left].
    + eexists. split; [reflexivity|]. right; right; by right.
  - intros password2 result2 Hr2 Hfail2.
    by rewrite (Hsecond _ _ _ _ Hr2 Hfail2), Hname.
Qed.

Lemma phone_registers_once_witness :
  let env := page false unreachable in
  let w1 := registered env fresh (u16 "13800138001") (u16 "李老师") (u16 "pw") teacher in
  (forall username2 password2 userType2 result2,
     userApi_register env (u16 "13800138001") username2 password2
       (userType_string userType2) w1
     = (Normal result2, w1) ->
     remote_ok result2 = false ->
     exists e,
       register env (u16 "13800138001") username2 password2 userType2 w1
       = (Throw e, w1)
       /\ validation_error e)
  /\ (forall password2 result2,
        userApi_register env (u16 "13800138001") (u16 "李老师") password2
          (userType_string teacher) w1
        = (Normal result2, w1) ->
        remote_ok result2 = false ->
        register env (u16 "13800138001") (u16 "李老师") password2 teacher w1
        = (Throw phone_taken_error, w1)).
Proof.
  apply (phone_registers_once (page false unreachable) (page false unreachable)
           (u16 "13800138001") (u16 "李老师") (u16 "pw") teacher fresh
           (registered (page false unreachable) fresh (u16 "13800138001")
              (u16 "李老师") (u16 "pw") teacher)
           (failure (u16 "Failed to fetch"))).
  - reflexivity.
  - reflexivity.
  - exact I.
  - constructor.
  - vm_compute. reflexivity.
Defined.

Lemma phone_not_in_phones phone items :
  Forall (fun u => strict_eq_str (optional_prop u "phone") phone = false) items ->
  phone ∉ phones items.
Proof.
  intros Hother Hin. unfold phones in Hin.
  apply list_elem_of_omap in Hin as (u & Hu & Hp).
  rewrite Forall_forall in Hother. specialize (Hother u Hu).
  unfold phone_of in Hp. unfold strict_eq_str in Hother.
  destruct (optional_prop u "phone") as [[]|]; try discriminate.
  injection Hp as ->. by rewrite bool_decide_eq_true_2 in Hother.
Qed.

(** X13 (phones stay unique).  If no two records of a readable roster have
    the same phone, the same holds after a registration that succeeded
    through the local path (the remote answer was not accepted): the
    phones of the roster are the old ones followed by the new phone, which
    no earlier record had. *)
Theorem register_keeps_phones_unique env (phone username password : jsstring)
    (userType : UserType) (w w1 : world) (result : ApiResponse) :
  userApi_register env phone username password (userType_string userType) w
  = (Normal result, w) ->
  remote_ok result = false ->
  readable_roster w ->
  NoDup (phones (roster w)) ->
  register env phone username password userType w = (Normal true, w1) ->
  phones (roster w1) = phones (roster w) ++ [phone]
  /\ NoDup (phones (roster w1)).
Proof.
  intros Hr Hfail Hread Hnodup Hreg.
  destruct (register_local_success _ _ _ _ _ _ _ _ Hr Hfail Hread Hreg)
    as (-> & _ & _ & Hother).
  destruct (registered_readable env w phone username password userType Hread)
    as [_ ->].
  assert (Hphones :
    phones (roster w ++ [JObj (newUser env phone username password userType)])
    = phones (roster w) ++ [phone]).
  { assert (Hp : phone_of (JObj (newUser env phone username password userType))
                 = Some phone).
    { unfold phone_of. cbn [optional_prop].
      by replace (newUser env phone username password userType !! "phone")
        with (Some (JStr phone)) by (vm_compute; reflexivity). }
    unfold phones. rewrite omap_app. cbn [omap list_omap]. by rewrite Hp. }
  rewrite Hphones. split; [done|].
  apply NoDup_app. split; [done|]. split; [|apply NoDup_singleton].
  intros p Hp Hin. apply list_elem_of_singleton in Hin as ->.
  by apply (phone_not_in_phones phone (roster w)).
Qed.

Lemma register_keeps_phones_unique_witness :
  let env := page false (refuses (u16 "/api/user/register")) in
  let w1 := registered env with_local_account (u16 "13900139000") (u16 "李老师")
              (u16 "pw") teacher in
  phones (roster w1) = phones (roster with_local_account) ++ [u16 "13900139000"]
  /\ NoDup (phones (roster w1)).
Proof.
  apply (register_keeps_phones_unique (page false (refuses (u16 "/api/user/register")))
           (u16 "13900139000") (u16 "李老师") (u16 "pw") teacher
           with_local_account
           (registered (page false (refuses (u16 "/api/user/register"))) with_local_account
              (u16 "13900139000") (u16 "李老师") (u16 "pw") teacher)
           refused).
  - vm_compute. reflexivity.
  - reflexivity.
  - vm_compute. by repeat constructor.
  - vm_compute. apply NoDup_singleton.
  - vm_compute. reflexivity.
Defined.

(** X14 (failed attempts leave no trace; [register] never answers [false]).
    A [login] that returns [false] leaves the store and the session
    exactly as they were.  A [register] that raises one of its four
    validation errors has written nothing: the store and the session are
    exactly as they were.  [register] never returns [false]: its
    [return false] is not reached. *)
Theorem failed_attempts_leave_no_trace env (phone username password : jsstring)
    (userType : UserType) (w : world) :
  (forall w1, login env phone password w = (Normal false, w1) -> w1 = w)
  /\ (forall e w1,
        register env phone username password userType w = (Throw e, w1) ->
        validation_error e -> w1 = w)
  /\ (forall w1,
        register env phone username password userType w <> (Normal false, w1)).
Proof.
  split; [|split].
  - intros w1. destruct (login_result env phone password w) as (b & w2 & -> & Hb).
    by intros [= -> ->].
  - intros e w1.
    destruct (userApi_register_reply env phone username password
                (userType_string userType) w) as [result Hremote].
    rewrite (register_spec _ _ _ _ _ _ _ Hremote).
    destruct (remote_ok result).
    { destruct (rest_without _ _) eqn:E; [done|]. by intros [= <- <-]. }
    destruct (negb (name_ok userType username)); [by intros [= <- <-]|].
    destruct (negb (Regex.test phoneRegex phone)); [by intros [= <- <-]|].
    destruct (JSON_parse _) as [users|e1]; [|by intros [= <- <-]].
    destruct (array_some (has_phone phone) users) as [[]|e1].
    + by intros [= <- <-].
    + cbv zeta. destruct (array_push _ _); [done|]. by intros [= <- <-].
    + by intros [= <- <-].
  - intros w1.
    destruct (userApi_register_reply env phone username password
                (userType_string userType) w) as [result Hremote].
    rewrite (register_spec _ _ _ _ _ _ _ Hremote).
    destruct (remote_ok result); [by destruct (rest_without _ _)|].
    destruct (negb (name_ok userType username)); [done|].
    destruct (negb (Regex.test phoneRegex phone)); [done|].
    destruct (JSON_parse _) as [users|]; [|done].
    destruct (array_some (has_phone phone) users) as [[]|]; try done.
    cbv zeta. by destruct (array_push _ _).
Qed.

(** X15 ([register] is remote-first).  When the remote envelope of a
    registration has [success: true] and a record as data, [register]
    returns [true] without any local validation of the name or the phone:
    the session user is the server's record without its [password]
    property, persisted under [currentUser], and the local roster is left
    as it was. *)
Theorem register_remote_first env (phone username password : jsstring)
    (userType : UserType) (w : world) (result : ApiResponse)
    (props : gmap string json) :
  userApi_register env phone username password (userType_string userType) w
  = (Normal result, w) ->
  success result = true ->
  data result = Some (JObj props) ->
  register env phone username password userType w
  = (Normal true, signed_in w (JObj (delete "password" props)))
  /\ roster (signed_in w (JObj (delete "password" props))) = roster w.
Proof.
  intros Hremote Hok Hdata.
  rewrite (register_spec _ _ _ _ _ _ _ Hremote). unfold remote_ok.
  rewrite Hok, Hdata. cbn [truthy_opt truthy andb default from_option id].
  split; [reflexivity|].
  unfold roster, signed_in. cbn [localStorage]. by rewrite lookup_insert_ne.
Qed.

Lemma register_remote_first_witness :
  let props := <["password" := JStr (u16 "pw")]> account_props in
  let env := page false (answers 200 (Envelope true (Some (JObj props)) None)) in
  register env (u16 "13800138001") (u16 "not a valid name") (u16 "pw") student
    with_local_account
  = (Normal true, signed_in with_local_account (JObj (delete "password" props)))
  /\ roster (signed_in with_local_account (JObj (delete "password" props)))
     = roster with_local_account.
Proof.
  apply (register_remote_first
           (page false (answers 200
              (Envelope true
                 (Some (JObj (<["password" := JStr (u16 "pw")]> account_props)))
                 None)))
           (u16 "13800138001") (u16 "not a valid name") (u16 "pw") student
           with_local_account
           (Envelope true
              (Some (JObj (<["password" := JStr (u16 "pw")]> account_props))) None)
           (<["password" := JStr (u16 "pw")]> account_props));
    reflexivity.
Defined.

(** ** The image viewer *)

Section Viewer.
Import ImageViewer ImageViewerControls.
#[local] Set Warnings "-inexact-float".
#[local] Open Scope Z_scope.

Lemma next_index len i :
  1 < len -> 0 <= i < len ->
  Z.rem (i + 1) len = (if i =? len - 1 then 0 else i + 1).
Proof.
  intros Hlen Hi. destruct (Z.eqb_spec i (len - 1)) as [->|Hne].
  - replace (len - 1 + 1) with len by lia. apply Z.rem_same. lia.
  - apply Z.rem_small. lia.
Qed.

Lemma prev_index len i :
  1 < len -> 0 <= i < len ->
  Z.rem (i - 1 + len) len = (if i =? 0 then len - 1 else i - 1).
Proof.
  intros Hlen Hi. destruct (Z.eqb_spec i 0) as [->|Hne].
  - replace (0 - 1 + len) with (len - 1) by lia. apply Z.rem_small. lia.
  - rewrite Z.rem_mod_nonneg by lia.
    replace (i - 1 + len) with (i - 1 + 1 * len) by lia.
    rewrite Z.mod_add by lia. apply Z.mod_small. lia.
Qed.

(** X16 (image navigation).  With more than one image, a callback, and a
    current index inside the list, [handleNextImage] and [handlePrevImage]
    hand the callback an index inside the list: the neighbour, wrapping from
    the last image to the first and back; each undoes the other.  With at
    most one image, or without a callback, the callback is not called. *)
Theorem navigation_wraps {A} (images : list A) :
  let len := Z.of_nat (length images) in
  (forall i, 1 < len -> 0 <= i < len ->
     exists next prev,
       handleNextImage images i true = Some next
       /\ handlePrevImage images i true = Some prev
       /\ 0 <= next < len /\ 0 <= prev < len
       /\ next = (if i =? len - 1 then 0 else i + 1)
       /\ prev = (if i =? 0 then len - 1 else i - 1)
       /\ handlePrevImage images next true = Some i
       /\ handleNextImage images prev true = Some i)
  /\ (forall i onIndexChange, len <= 1 \/ onIndexChange = false ->
        handleNextImage images i onIndexChange = None
        /\ handlePrevImage images i onIndexChange = None).
Proof.
  cbv zeta. split.
  - intros i Hlen Hi. unfold handleNextImage, handlePrevImage. cbv zeta.
    assert ((1 <? Z.of_nat (length images)) = true) as ->
      by (apply Z.ltb_lt; lia).
    cbn [andb].
    eexists _, _. split; [reflexivity|]. split; [reflexivity|].
    rewrite (next_index _ i), (prev_index _ i) by done.
    destruct (Z.eqb_spec i (Z.of_nat (length images) - 1)) as [Hlast|Hlast];
      destruct (Z.eqb_spec i 0) as [Hfirst|Hfirst];
      repeat split; try lia;
      rewrite ?next_index, ?prev_index by lia;
      f_equal;
      repeat match goal with
             | |- context [?a =? ?b] => destruct (Z.eqb_spec a b)
             end; lia.
  - intros i cb Hnone. unfold handleNextImage, handlePrevImage. cbv zeta.
    destruct Hnone as [Hlen| ->].
    + assert ((1 <? Z.of_nat (length images)) = false) as ->
        by (apply Z.ltb_ge; lia).
      done.
    + by rewrite andb_false_r.
Qed.

(** The quarter turns a viewer can show. *)
Lemma quarter_turn_step r t :
  (exists k, -3 <= k <= 3 /\ r = 90 * k) ->
  exists k, -3 <= k <= 3 /\ apply_turn r t = 90 * k.
Proof.
  intros (k & Hk & ->).
  assert (k = -3 \/ k = -2 \/ k = -1 \/ k = 0 \/ k = 1 \/ k = 2 \/ k = 3)
    as Hcases by lia.
  destruct t; cbn [apply_turn]; unfold handleRotateLeft, handleRotateRight;
    destruct Hcases as [->|[->|[->|[->|[->|[->| ->]]]]]];
    first [ by exists (-3) | by exists (-2) | by exists (-1) | by exists 0
          | by exists 1 | by exists 2 | by exists 3 ].
Qed.

Lemma quarter_turns_fold turns r :
  (exists k, -3 <= k <= 3 /\ r = 90 * k) ->
  exists k, -3 <= k <= 3 /\ fold_left apply_turn turns r = 90 * k.
Proof.
  revert r. induction turns as [|t turns IH]; intros r Hr; [exact Hr|].
  cbn [fold_left]. apply IH. by apply quarter_turn_step.
Qed.

Lemma rem_congruent a : (Z.rem a 360 - a) mod 360 = 0.
Proof.
  rewrite (Z.quot_rem' a 360) at 2.
  replace (Z.rem a 360 - (360 * (a ÷ 360) + Z.rem a 360))
    with (- (a ÷ 360) * 360) by lia.
  apply Z.mod_mul. lia.
Qed.

Lemma congruent_trans a b c :
  (a - b) mod 360 = 0 -> (b - c) mod 360 = 0 -> (a - c) mod 360 = 0.
Proof.
  intros Hab Hbc.
  apply Z.mod_divide in Hab; [|lia]. apply Z.mod_divide in Hbc; [|lia].
  apply Z.mod_divide; [lia|].
  replace (a - c) with ((a - b) + (b - c)) by lia. by apply Z.divide_add_r.
Qed.

(** X17 (rotation).  After any sequence of left and right turns on a fresh
    viewer the rotation is a whole number of quarter turns between -270 and
    270 degrees.  From any rotation, a left turn followed by a right turn,
    a right turn followed by a left turn, and four right turns each give
    the same orientation again (the same angle modulo 360). *)
Theorem rotation_quarter_turns :
  (forall turns, exists k, -3 <= k <= 3 /\ rotation_after turns = 90 * k)
  /\ (forall r,
        (handleRotateRight (handleRotateLeft r) - r) mod 360 = 0
        /\ (handleRotateLeft (handleRotateRight r) - r) mod 360 = 0
        /\ (handleRotateRight
              (handleRotateRight (handleRotateRight (handleRotateRight r))) - r)
           mod 360 = 0).
Proof.
  split.
  - intros turns. apply quarter_turns_fold. by exists 0.
  - intros r. unfold handleRotateLeft, handleRotateRight.
    split; [|split].
    + eapply congruent_trans; [apply rem_congruent|].
      replace (Z.rem (r - 90) 360 + 90 - r) with (Z.rem (r - 90) 360 - (r - 90))
        by lia.
      apply rem_congruent.
    + eapply congruent_trans; [apply rem_congruent|].
      replace (Z.rem (r + 90) 360 - 90 - r) with (Z.rem (r + 90) 360 - (r + 90))
        by lia.
      apply rem_congruent.
    + set (r1 := Z.rem (r + 90) 360). set (r2 := Z.rem (r1 + 90) 360).
      set (r3 := Z.rem (r2 + 90) 360).
      pose proof (rem_congruent (r + 90)) as H1. fold r1 in H1.
      pose proof (rem_congruent (r1 + 90)) as H2. fold r2 in H2.
      pose proof (rem_congruent (r2 + 90)) as H3. fold r3 in H3.
      pose proof (rem_congruent (r3 + 90)) as H4.
      apply Z.mod_divide in H1, H2, H3, H4; try lia.
      destruct H1 as [q1 H1], H2 as [q2 H2], H3 as [q3 H3], H4 as [q4 H4].
      apply Z.mod_divide; [lia|]. exists (q1 + q2 + q3 + q4 + 1). lia.
Qed.

(** X18 (no drag at rest scale).  While the scale is at most 1 (as it is in
    a fresh viewer) and no drag is in progress, no sequence of mouse
    presses, moves and releases moves the image or starts a drag. *)
Theorem no_drag_at_rest_scale (v : drag) (events : list mouse) :
  isDragging v = false ->
  (scale v <=? 1)%float = true ->
  position (fold_left handle events v) = position v
  /\ isDragging (fold_left handle events v) = false
  /\ scale (fold_left handle events v) = scale v.
Proof.
  revert v. induction events as [|e events IH]; intros v Hrest Hscale; [done|].
  cbn [fold_left].
  assert (Hstep : position (handle v e) = position v
                  /\ isDragging (handle v e) = false
                  /\ scale (handle v e) = scale v).
  { destruct e; cbn [handle]; unfold handleMouseDown, handleMouseMove,
      handleMouseUp; rewrite ?Hscale, ?Hrest; done. }
  destruct Hstep as (Hp & Hd & Hs).
  destruct (IH (handle v e)) as (IHp & IHd & IHs); [done|by rewrite Hs|].
  rewrite IHp, IHd, IHs. done.
Qed.

Lemma no_drag_at_rest_scale_witness :
  let v := Drag 1 (Point 0 0) false (Point 0 0) in
  let events := [MouseDown 10 10; MouseMove 50 80; MouseUp] in
  position (fold_left handle events v) = position v
  /\ isDragging (fold_left handle events v) = false
  /\ scale (fold_left handle events v) = scale v.
Proof.
  apply (no_drag_at_rest_scale (Drag 1 (Point 0 0) false (Point 0 0))
           [MouseDown 10 10; MouseMove 50 80; MouseUp]); reflexivity.
Defined.

(** X19 (zooming makes progress).  At every scale a fresh viewer can reach,
    zooming in gives a strictly larger scale unless the scale is exactly 5,
    and zooming out gives a strictly smaller scale unless it is exactly
    0.2: the two bounds are the only scales at which a zoom button stops
    having an effect. *)
Theorem zoom_makes_progress (ops : list zoom) :
  ((scale_after ops <? handleZoomIn (scale_after ops))%float = true
   \/ scale_after ops = 5%float)
  /\ ((handleZoomOut (scale_after ops) <? scale_after ops)%float = true
      \/ scale_after ops = 0.2%float).
Proof.
  assert (Hin : In (scale_after ops) reachable_scales).
  { apply reachable_fold. vm_compute. repeat (first [left; reflexivity | right]). }
  assert (Hall : Forall (fun s =>
            ((s <? handleZoomIn s)%float = true \/ s = 5%float)
            /\ ((handleZoomOut s <? s)%float = true \/ s = 0.2%float))
            reachable_scales).
  { unfold reachable_scales.
    repeat (constructor;
            [ split;
              first [ left; vm_compute; reflexivity | right; reflexivity ] | ]).
    constructor. }
  rewrite List.Forall_forall in Hall. by apply Hall.
Qed.

End Viewer.
